(** * d3blocks, chord block: edge properties and the d3 payload

    A shallow embedding of [d3blocks/chord/Chord.py]:
    [set_edge_properties] (the opacity rules, the pre-processing call and
    the color rules), [show] (the id resolution) and
    [get_data_ready_for_d3] (the text handed to the template).

    The pandas DataFrame is the one mutable object of the module: the
    functions assign columns of the caller's table in place and raise
    exceptions. The embedding threads the table through a state and
    exception monad, so that the table left behind by a call that raises
    is still there to look at. *)

From Stdlib Require Import ZArith Ascii String List Sorted Lia.
From stdpp Require Import base option list strings gmap pretty.

(** ** Python values *)

(** The scalars that occur as cells of the table and as arguments.
    A float is carried by its [repr], the shortest decimal text that reads
    back to the same float: the module never computes with a float, it
    stores floats and prints them with [str], and [str] of a float is
    its [repr]. *)
Inductive pyval :=
| PNone
| PBool (b : bool)
| PInt (z : Z)
| PFloat (r : string)
| PStr (s : string).

#[global] Instance pyval_eq_dec : EqDecision pyval.
Proof. solve_decision. Defined.

(** The arguments [color] and [opacity]: one scalar, or a list or numpy
    array of scalars (the code tests [isinstance(x, (list, np.ndarray))]
    and takes [len(x)], nothing else). *)
Inductive pyarg :=
| One (v : pyval)
| Many (l : list pyval).

(** The double quote character, and a text between double quotes. *)
Definition dq : string := String (ascii_of_nat 34) EmptyString.
Definition quoted (s : string) : string := dq +:+ s +:+ dq.

(** Python's [str]. *)
Definition py_str (v : pyval) : string :=
  match v with
  | PNone => "None"
  | PBool true => "True"
  | PBool false => "False"
  | PInt z => pretty z
  | PFloat r => r
  | PStr s => s
  end.

(** [X[:-1]]: the text without its last character. *)
Fixpoint drop_last (s : string) : string :=
  match s with
  | EmptyString => EmptyString
  | String _ EmptyString => EmptyString
  | String c rest => String c (drop_last rest)
  end.

Definition is_None (a : pyarg) : bool :=
  match a with One PNone => true | _ => false end.

Definition isinstance_list (a : pyarg) : bool :=
  match a with Many _ => true | One _ => false end.

(** [len] of a list or array argument. *)
Definition py_len (a : pyarg) : nat :=
  match a with Many l => length l | One _ => 0 end.

(** [isinstance(x, (int, float))] with the scalar it holds; [bool] is a
    subclass of [int]. *)
Definition as_number (a : pyarg) : option pyval :=
  match a with
  | One (PInt z) => Some (PInt z)
  | One (PFloat r) => Some (PFloat r)
  | One (PBool b) => Some (PBool b)
  | _ => None
  end.

(** [isinstance(x, str) and (x == 'source' or x == 'target')], with the
    column name. *)
Definition source_or_target (a : pyarg) : option string :=
  match a with
  | One (PStr s) =>
      if bool_decide (s = "source" ∨ s = "target") then Some s else None
  | _ => None
  end.

(** ** Exceptions *)

Inductive pyexc :=
| Exception (msg : string)  (* [raise Exception(msg)] *)
| KeyError (label : string) (* a column label that the table does not have *)
| TypeError                 (* [None[...]]: None is not subscriptable *)
| IndexError                (* an index out of range *)
| ValueError                (* a column of the wrong length is assigned *)
| SchemaError.              (* raised by [pre_processing] *)

(** The message of line 66. *)
Definition opacity_size_message : string :=
  "Input parameter " +:+ quoted "opacity" +:+
  " should be of same size of dataframe.".

(** The spec names errors by their cause. The size check of lines 65-66
    raises a plain [Exception] with the message above: the
    size-mismatch class. *)
Definition ConfigurationError : pyexc := Exception opacity_size_message.

(** [labels.get(x)['id']] for a key that the dict does not have
    subscripts [None]; Python reports it as a [TypeError]. It is the
    failure of a strict node lookup. *)
Definition LookupError : pyexc := TypeError.

Inductive outcome (A : Type) :=
| Return (a : A)
| Raise (e : pyexc).
Arguments Return {A} a.
Arguments Raise {A} e.

#[global] Instance outcome_ret : MRet outcome := λ A a, Return a.
#[global] Instance outcome_bind : MBind outcome := λ A B f m,
  match m with Return a => f a | Raise e => Raise e end.

(** ** The node catalog *)

(** One entry of [d3.nodes]: [{'id':, 'desc':, 'color':, 'opacity':}]. *)
Record Node := mkNode {
  node_id : Z;
  node_desc : string;
  node_color : string;
  node_opacity : string (* the [repr] of the float *)
}.

(** [d.get(x)]: the keys are strings, any other value is not a key. *)
Definition dict_get (d : gmap string Node) (x : pyval) : option Node :=
  match x with
  | PStr s => d !! s
  | _ => None
  end.

(** [o[...]] where [o] is what [dict.get] gave. *)
Definition subscript {A} (o : option A) : outcome A :=
  match o with
  | Some a => Return a
  | None => Raise TypeError
  end.

(** [d.keys()]. The loops over it write, for each key, the cells that
    hold this key: the order of the keys has no effect. *)
Definition dict_keys (d : gmap string Node) : list string :=
  (map_to_list d).*1.

(** ** The DataFrame *)

(** [nrows] is [df.shape[0]]; a column is the list of its cells. *)
Record DataFrame := mkDF {
  nrows : nat;
  columns : gmap string (list pyval)
}.

(** Every column has [nrows] cells. *)
Definition well_formed (df : DataFrame) : bool :=
  forallb (λ kv, bool_decide (length kv.2 = nrows df)) (map_to_list (columns df)).

(** [np.any(df.columns == c)]. *)
Definition has_column (c : string) (df : DataFrame) : bool :=
  bool_decide (is_Some (columns df !! c)).

(** The monad of the functions that work on the caller's table. *)
Definition M (A : Type) : Type := DataFrame → DataFrame * outcome A.

#[global] Instance M_ret : MRet M := λ A a df, (df, Return a).
#[global] Instance M_bind : MBind M := λ A B f m df,
  match m df with
  | (df', Return a) => f a df'
  | (df', Raise e) => (df', Raise e)
  end.

Definition get_df : M DataFrame := λ df, (df, Return df).
Definition raise {A} (e : pyexc) : M A := λ df, (df, Raise e).
Definition lift {A} (o : outcome A) : M A := λ df, (df, o).
Definition modify (f : DataFrame → DataFrame) : M unit := λ df, (f df, Return tt).

(** [for x in l: body(x)]. *)
Fixpoint for_each {A} (l : list A) (body : A → M unit) : M unit :=
  match l with
  | [] => mret tt
  | x :: rest => body x ;; for_each rest body
  end.

(** [list(map(f, l))] where [f] may raise. *)
Fixpoint map_raising {A B} (f : A → outcome B) (l : list A) : outcome (list B) :=
  match l with
  | [] => Return []
  | x :: rest => y ← f x; ys ← map_raising f rest; Return (y :: ys)
  end.

(** [df[c]], read. *)
Definition read_column (df : DataFrame) (c : string) : outcome (list pyval) :=
  match columns df !! c with
  | Some col => Return col
  | None => Raise (KeyError c)
  end.

Definition column (c : string) : M (list pyval) :=
  λ df, (df, read_column df c).

(** [df[c] = v] for a scalar [v]: the whole column is [v]. *)
Definition assign_scalar (c : string) (v : pyval) : M unit :=
  modify (λ df, mkDF (nrows df) (<[c := replicate (nrows df) v]> (columns df))).

(** [df[c] = vs] for a list or array [vs]: pandas refuses another length. *)
Definition assign_list (c : string) (vs : list pyval) : M unit :=
  λ df, if bool_decide (length vs = nrows df)
        then (mkDF (nrows df) (<[c := vs]> (columns df)), Return tt)
        else (df, Raise ValueError).

(** The cell is the key: [cell == key] for a key of the catalog. *)
Definition is_key (key : string) (cell : pyval) : bool :=
  bool_decide (cell = PStr key).

(** One column with [v] put where the mask holds. *)
Definition overwrite (mask : list bool) (v : pyval) (col : list pyval) : list pyval :=
  zip_with (λ (m : bool) old, if m then v else old) mask col.

(** [df.loc[df[which] == key, c] = v]. A column [c] that does not exist
    yet is created, with NaN in the rows that the mask leaves out. *)
Definition loc_assign (which key c : string) (v : pyval) : M unit :=
  keys ← column which;
  modify (λ df,
    let old := default (replicate (nrows df) (PFloat "nan")) (columns df !! c) in
    mkDF (nrows df) (<[c := overwrite (is_key key <$> keys) v old]> (columns df))).

(** The loop of lines 75-76 and 99-100:
    [for key in nodes.keys(): df.loc[df[which]==key, c] = nodes.get(key)[field]]. *)
Definition copy_from_nodes (nodes : gmap string Node) (which c : string)
    (field : Node → pyval) : M unit :=
  for_each (dict_keys nodes) (λ key,
    n ← lift (subscript (nodes !! key));
    loc_assign which key c (field n)).

(** ** The helpers of [utils] *)

(** Modelled from the spec: [utils.pre_processing] is imported by
    [Chord.py] and is not part of the sources at hand. The spec (section
    4.1) gives it one observable rule: the columns [source], [target] and
    [weight] must exist, and it fails with [SchemaError] if one is absent.
    The table passes through as it is otherwise. *)
Definition pre_processing : M unit :=
  df ← get_df;
  if has_column "source" df && has_column "target" df && has_column "weight" df
  then mret tt
  else raise SchemaError.

(** ** Unique (source, target) pairs *)

(** The key columns hold node labels; a row is keyed by the text of its
    two cells. *)
Definition row_keys (src tgt : list pyval) : list (string * string) :=
  zip (py_str <$> src) (py_str <$> tgt).

Definition pair_compare (p q : string * string) : comparison :=
  match String.compare p.1 q.1 with
  | Eq => String.compare p.2 q.2
  | c => c
  end.

Fixpoint insert_unique (p : string * string) (l : list (string * string))
    : list (string * string) :=
  match l with
  | [] => [p]
  | q :: rest =>
      match pair_compare p q with
      | Lt => p :: l
      | Eq => l
      | Gt => q :: insert_unique p rest
      end
  end.

(** [df.groupby(['source','target']).size().reset_index()[['source','target']]]:
    the distinct pairs, sorted. *)
Definition groupby_source_target (pairs : list (string * string))
    : list (string * string) :=
  foldr insert_unique [] pairs.

(** The position of a row among the rows of [u]. *)
Definition row_index (u : list (string * string)) (p : string * string) : option nat :=
  fst <$> list_find (λ q, q = p) u.

(** The second result of [ismember(d, u, method='rows')]: for each row of
    [d] that is a row of [u], its position in [u]. *)
Definition ismember_rows (d u : list (string * string)) : list nat :=
  omap (row_index u) d.

(** ** Node order: [np.unique(list_id, return_index=True)] *)

(** The sorted distinct values met so far, each with the index where it
    was met first. *)
Fixpoint insert_first (v : Z) (i : nat) (acc : list (Z * nat)) : list (Z * nat) :=
  match acc with
  | [] => [(v, i)]
  | (w, j) :: rest =>
      match (v ?= w)%Z with
      | Lt => (v, i) :: acc
      | Eq => acc
      | Gt => (w, j) :: insert_first v i rest
      end
  end.

(** A scan from the left, [i] being the index of the head of [l]. *)
Fixpoint unique_scan (i : nat) (l : list Z) (acc : list (Z * nat)) : list (Z * nat) :=
  match l with
  | [] => acc
  | v :: rest => unique_scan (S i) rest (insert_first v i acc)
  end.

(** Both results of [np.unique(l, return_index=True)], paired: the sorted
    distinct values and the indices of their first occurrences. *)
Definition np_unique (l : list Z) : list (Z * nat) := unique_scan 0 l [].

Definition np_unique_index (l : list Z) : list nat := (np_unique l).*2.

(** ** The text for d3 *)

(** Lines 215-218: what one node adds to [X]. *)
Definition node_entry (name color : string) (opacity : pyval) : string :=
  "{" +:+ quoted "name" +:+ ":" +:+ dq +:+ name +:+ dq +:+ "," +:+
  quoted "color" +:+ ":" +:+ dq +:+ color +:+ dq +:+ "," +:+
  quoted "opacity" +:+ ":" +:+ py_str opacity +:+
  "}, ".

(** Line 225: what one row adds to [X]. *)
Definition link_entry (source_id target_id weight opacity color : pyval) : string :=
  "{" +:+ quoted "source" +:+ ":" +:+ py_str source_id +:+
  "," +:+ quoted "target" +:+ ":" +:+ py_str target_id +:+
  "," +:+ quoted "value" +:+ ":" +:+ py_str weight +:+
  "," +:+ quoted "opacity" +:+ ":" +:+ py_str opacity +:+
  "," +:+ quoted "color" +:+ ":" +:+ dq +:+ py_str color +:+ dq +:+ "},".

(** [a[i]]. *)
Definition item {A} (a : list A) (i : nat) : outcome A :=
  match a !! i with
  | Some x => Return x
  | None => Raise IndexError
  end.

(** [row[c]] for the row of position [r] that [df.iterrows()] yields. *)
Definition row_item (df : DataFrame) (r : nat) (c : string) : outcome pyval :=
  match columns df !! c with
  | Some col => item col r
  | None => Raise (KeyError c)
  end.

(** The text that lines 213-218 add for the index [i]. *)
Definition node_of_index (labels : gmap string Node) (list_name : list string)
    (i : nat) : outcome string :=
  name ← item list_name i;
  n ← subscript (labels !! name);
  Return (node_entry name (node_color n) (PFloat (node_opacity n))).

(** The text that line 225 adds for the row of position [r]. *)
Definition link_of_row (df : DataFrame) (r : nat) : outcome string :=
  source_id ← row_item df r "source_id";
  target_id ← row_item df r "target_id";
  weight ← row_item df r "weight";
  opacity ← row_item df r "opacity";
  color ← row_item df r "color";
  Return (link_entry source_id target_id weight opacity color).

(** The two loops, lines 212-218 and 224-225, have one shape:
    [for x in xs: X = X + entry(x)]. *)
Fixpoint emit {A} (entry : A → outcome string) (xs : list A) (X : string)
    : outcome string :=
  match xs with
  | [] => Return X
  | x :: rest =>
      e ← entry x;
      emit entry rest (X +:+ e)
  end.

(** [list(map(lambda x: labels.get(x)[field], df[c]))]. *)
Definition node_fields {A} (df : DataFrame) (labels : gmap string Node)
    (field : Node → A) (c : string) : outcome (list A) :=
  col ← read_column df c;
  map_raising (λ x, n ← subscript (dict_get labels x); Return (field n)) col.

Definition get_data_ready_for_d3 (df : DataFrame) (labels : gmap string Node)
    : outcome string :=
  id_source ← node_fields df labels node_id "source";
  id_target ← node_fields df labels node_id "target";
  let list_id := id_source ++ id_target in
  name_source ← node_fields df labels node_desc "source";
  name_target ← node_fields df labels node_desc "target";
  let list_name := name_source ++ name_target in
  let idx := np_unique_index list_id in
  X ← emit (node_of_index labels list_name) idx ("{" +:+ quoted "nodes" +:+ ":[");
  let X := drop_last X +:+ "]," in
  let X := X +:+ " " +:+ quoted "links" +:+ ":[" in
  X ← emit (link_of_row df) (seq 0 (nrows df)) X;
  Return (drop_last X +:+ "]}").

(** [show], up to the text [X] that it passes on to [write_html]; the
    template and the file are outside the embedding. The positional rows
    of the model make [reset_index] the identity. *)
Definition show (labels : gmap string Node) : M string :=
  df ← get_df;
  source_id ← lift (node_fields df labels (λ n, PInt (node_id n)) "source");
  assign_list "source_id" source_id ;;
  df ← get_df;
  target_id ← lift (node_fields df labels (λ n, PInt (node_id n)) "target");
  assign_list "target_id" target_id ;;
  df ← get_df;
  lift (get_data_ready_for_d3 df labels).

(** ** [set_edge_properties] *)

Section Chord.

(** The color map behind [utils.set_colors]: for a palette name and the
    column of labels, the hex color of a label. *)
Variable colourmap : string → list string → string → string.

(** Modelled from the spec: [utils.set_colors] is imported by [Chord.py]
    and is not part of the sources at hand. The spec (sections 2 and 4.1)
    has it map each categorical label to a hex color through the color
    resolver, for the requested palette. Its first result, the color of
    each row, is all that the code keeps. *)
Definition set_colors (cmap : string) (labels : list string) : list string :=
  colourmap cmap labels <$> labels.

(** Lines 65-85. *)
Definition opacity_rules (color opacity : pyarg)
    (nodes : option (gmap string Node)) : M unit :=
  df ← get_df;
  if isinstance_list opacity && negb (bool_decide (py_len opacity = nrows df)) then
    raise ConfigurationError
  else if is_None opacity && has_column "opacity" df then
    mret tt
  else
    match nodes, source_or_target opacity with
    | Some nodes, Some which =>
        assign_scalar "opacity" (PFloat "0.8") ;;
        copy_from_nodes nodes which "opacity" (λ n, PFloat (node_opacity n))
    | _, _ =>
        match as_number opacity with
        | Some v => assign_scalar "opacity" v
        | None =>
            if isinstance_list color && bool_decide (py_len color = nrows df) then
              mret tt
            else
              assign_scalar "opacity" (PFloat "0.8")
        end
    end.

(** [isinstance(color, str) and (color[0]=='#') and (len(color)==7)]:
    the hex literal if the test holds; [color[0]] raises on the empty
    string. *)
Definition hex_literal (color : pyarg) : outcome (option string) :=
  match color with
  | One (PStr s) =>
      match s with
      | EmptyString => Raise IndexError
      | String c _ =>
          Return (if bool_decide (c = "#"%char) && bool_decide (String.length s = 7)
                  then Some s else None)
      end
  | _ => Return None
  end.

(** Lines 110-112. *)
Definition color_by_pair (cmap : string) : M unit :=
  src ← column "source";
  tgt ← column "target";
  let d := row_keys src tgt in
  let uidf := groupby_source_target d in
  assign_list "labels" ((λ i, PInt (Z.of_nat i)) <$> ismember_rows d uidf) ;;
  labels ← column "labels";
  assign_list "color" (PStr <$> set_colors cmap (py_str <$> labels)).

(** The colors of lines 110-112, row by row. *)
Definition pair_colors (cmap : string) (src tgt : list pyval) : list pyval :=
  let d := row_keys src tgt in
  let labels := (λ i, PInt (Z.of_nat i)) <$> ismember_rows d (groupby_source_target d) in
  PStr <$> set_colors cmap (py_str <$> labels).

(** Lines 91-112. *)
Definition color_rules (color : pyarg) (cmap : string)
    (nodes : option (gmap string Node)) : M unit :=
  df ← get_df;
  if is_None color && has_column "color" df then
    mret tt
  else
    match nodes, source_or_target color with
    | Some nodes, Some which =>
        assign_scalar "color" (PStr "#000000") ;;
        copy_from_nodes nodes which "color" (λ n, PStr (node_color n))
    | _, _ =>
        hex ← lift (hex_literal color);
        match hex with
        | Some s => assign_list "color" (replicate (nrows df) (PStr s))
        | None =>
            if isinstance_list color && bool_decide (py_len color = nrows df) then
              mret tt
            else
              color_by_pair cmap
        end
    end.

(** The function returns the table; here the table is the state, and
    the state that comes with a [Raise] is the table as the exception
    leaves it. *)
Definition set_edge_properties (color opacity : pyarg) (cmap : string)
    (nodes : option (gmap string Node)) : M unit :=
  opacity_rules color opacity nodes ;;
  pre_processing ;;
  color_rules color cmap nodes.

End Chord.

#[global] Instance pyarg_eq_dec : EqDecision pyarg.
Proof. solve_decision. Defined.

(** [set_edge_properties] with the pre-processing of [utils] left open:
    [pre] is any step that works on the table and may raise. With the
    step modelled above it is [set_edge_properties]. *)
Definition set_edge_properties_with (pre : M unit)
    (colourmap : string → list string → string → string)
    (color opacity : pyarg) (cmap : string)
    (nodes : option (gmap string Node)) : M unit :=
  opacity_rules color opacity nodes ;;
  pre ;;
  color_rules colourmap color cmap nodes.

(** ** [write_html] *)

(** [d[k]] for the configuration dict. *)
Definition getitem (d : gmap string pyarg) (k : string) : outcome pyarg :=
  match d !! k with
  | Some v => Return v
  | None => Raise (KeyError k)
  end.

(** [a[i]] for a value of the configuration: an item of a list, a
    character of a string; the other scalars are not subscriptable. *)
Definition getitem_at (a : pyarg) (i : nat) : outcome pyval :=
  match a with
  | Many l => item l i
  | One (PStr s) =>
      match String.get i s with
      | Some c => Return (PStr (String c EmptyString))
      | None => Raise IndexError
      end
  | One _ => Raise TypeError
  end.

(** The truth value of a Python value, as [and] tests it. *)
Definition truthy (a : pyarg) : bool :=
  match a with
  | Many l => negb (bool_decide (l = []))
  | One PNone => false
  | One (PBool b) => b
  | One (PInt z) => negb (bool_decide (z = 0%Z))
  | One (PFloat r) => negb (bool_decide (r = "0.0" ∨ r = "-0.0"))
  | One (PStr s) => negb (bool_decide (s = ""))
  end.

(** [Path(x)]: a string is a path, the other values of the model are
    refused. A path stands for itself. *)
Definition Path (a : pyarg) : outcome string :=
  match a with
  | One (PStr s) => Return s
  | _ => Raise TypeError
  end.

(** The dict [content] of lines 164-170. *)
Record Content := mkContent {
  json_data : string;
  TITLE : pyarg;
  WIDTH : pyval;
  HEIGHT : pyval;
  FONTSIZE : pyarg
}.

Section WriteHtml.

(** The template [chord.html.j2] of the package, rendered by jinja2: a
    text for each [content]. Neither the template nor the library is
    part of the sources at hand. *)
Variable render : Content → string.

(** The files are a map from paths to contents: [os.path.isfile] is a
    lookup, [os.remove] a deletion, and opening for writing followed by
    [write] sets the content. The pause of line 183 and the log line
    leave no trace in it. *)
Definition write_html (X : string) (config : gmap string pyarg)
    (files : gmap string string) : gmap string string * outcome unit :=
  match (title ← getitem config "title";
         figsize ← getitem config "figsize";
         width ← getitem_at figsize 0;
         figsize ← getitem config "figsize";
         height ← getitem_at figsize 1;
         fontsize ← getitem config "fontsize";
         Return (mkContent X title width height fontsize)) with
  | Raise e => (files, Raise e)
  | Return content =>
      match (filepath ← getitem config "filepath";
             index_file ← Path filepath;
             overwrite ← getitem config "overwrite";
             Return (index_file, overwrite)) with
      | Raise e => (files, Raise e)
      | Return (index_file, overwrite) =>
          let files :=
            if truthy overwrite && bool_decide (is_Some (files !! index_file))
            then delete index_file files
            else files in
          (<[index_file := render content]> files, Return tt)
      end
  end.

End WriteHtml.

(** A configuration and a template for the samples. *)
Definition sample_config : gmap string pyarg :=
  <["title" := One (PStr "Chord")]>
  (<["figsize" := Many [PInt 900; PInt 900]]>
  (<["fontsize" := One (PInt 10)]>
  (<["filepath" := One (PStr "chord.html")]>
  (<["overwrite" := One (PBool false)]> ∅)))).

Definition sample_render (c : Content) : string :=
  "<script>" +:+ json_data c +:+ "</script>".

(** ** The shape of the text *)

Definition join (l : list string) : string := foldr String.append EmptyString l.

(** Lines 211-226 around the two loops: the text made of the entries
    [nodes] and [links] that the loops add. *)
Definition payload_text (nodes links : list string) : string :=
  drop_last
    ((drop_last (("{" +:+ quoted "nodes" +:+ ":[") +:+ join nodes) +:+ "],") +:+
     (" " +:+ quoted "links" +:+ ":[") +:+ join links) +:+ "]}".

(** Distinct keys of the catalog carry distinct ids. *)
Definition ids_distinct (labels : gmap string Node) : Prop :=
  ∀ k1 k2 n1 n2,
    labels !! k1 = Some n1 → labels !! k2 = Some n2 →
    node_id n1 = node_id n2 → k1 = k2.

(** ** Which columns a computation may assign *)

(** [m] keeps the number of rows and assigns no column outside [S],
    whether it returns or raises. *)
Definition writes_only (S : list string) {A} (m : M A) : Prop :=
  ∀ df, nrows (m df).1 = nrows df ∧
        ∀ c, c ∉ S → columns (m df).1 !! c = columns df !! c.

(** The cell that the loop over the keys [ks] leaves where the key
    column holds [cell] and the assigned column held [old]. *)
Definition from_nodes (nodes : gmap string Node) (field : Node → pyval)
    (ks : list string) (cell old : pyval) : pyval :=
  match cell with
  | PStr s =>
      if bool_decide (s ∈ ks)
      then match nodes !! s with Some n => field n | None => old end
      else old
  | _ => old
  end.

(** ** Sample data *)

(** A text written with apostrophes where the payload has double
    quotes. *)
Fixpoint with_double_quotes (s : string) : string :=
  match s with
  | EmptyString => EmptyString
  | String c rest =>
      String (if Ascii.eqb c "'"%char then ascii_of_nat 34 else c) (with_double_quotes rest)
  end.

(** The catalog and the one-row table of the round trip. *)
Definition nodesAB : gmap string Node :=
  <["A" := mkNode 0 "A" "#fff" "0.5"]> (<["B" := mkNode 1 "B" "#000" "0.9"]> ∅).

Definition edgesAB : DataFrame :=
  mkDF 1 (<["source" := [PStr "A"]]>
         (<["target" := [PStr "B"]]>
         (<["weight" := [PInt 3]]> ∅))).

(** The payload as the round trip of the spec writes it. *)
Definition payload_claimed : string :=
  with_double_quotes ("{'nodes':[{'name':'A','color':'#fff','opacity':0.5}," +:+
        "{'name':'B','color':'#000','opacity':0.9}]," +:+
        "'links':[{'source':0,'target':1,'value':3,'opacity':0.5,'color':'#fff'}]}").

(** The text that the code builds for it; [tail] is what stands between
    the last node entry and the closing bracket. *)
Definition payload_built (tail : string) : string :=
  with_double_quotes ("{'nodes':[{'name':'A','color':'#fff','opacity':0.5}, " +:+
        "{'name':'B','color':'#000','opacity':0.9}" +:+ tail +:+ "], " +:+
        "'links':[{'source':0,'target':1,'value':3,'opacity':0.5,'color':'#fff'}]}").

(** The table of the round trip once resolved, as [get_data_ready_for_d3]
    receives it. *)
Definition edgesAB_resolved : DataFrame :=
  mkDF 1 (<["source_id" := [PInt 0]]>
         (<["target_id" := [PInt 1]]>
         (<["opacity" := [PFloat "0.5"]]>
         (<["color" := [PStr "#fff"]]> (columns edgesAB))))).

(** The same catalog with a display name for A that is not a key. *)
Definition nodes_renamed : gmap string Node :=
  <["A" := mkNode 0 "Alpha" "#fff" "0.5"]> (<["B" := mkNode 1 "B" "#000" "0.9"]> ∅).

(** Three rows, two of them between the same pair, and a key (C) that
    the catalog does not have. *)
Definition edges3 : DataFrame :=
  mkDF 3 (<["source" := [PStr "A"; PStr "C"; PStr "A"]]>
         (<["target" := [PStr "B"; PStr "A"; PStr "B"]]>
         (<["weight" := [PInt 1; PInt 2; PInt 5]]> ∅))).

(** A table without the column [weight]. *)
Definition edges_no_weight : DataFrame :=
  mkDF 1 (<["source" := [PStr "A"]]> (<["target" := [PStr "B"]]> ∅)).

(** A color map for the samples: the color is made of the label. *)
Definition sample_colourmap (cmap : string) (labels : list string) (label : string)
    : string :=
  "#00000" +:+ label.

(** The three rows with a color and an opacity of their own. *)
Definition edges3_styled : DataFrame :=
  mkDF 3 (<["color" := [PStr "#111111"; PStr "#222222"; PStr "#333333"]]>
         (<["opacity" := [PFloat "0.1"; PFloat "0.2"; PFloat "0.3"]]>
            (columns edges3))).

(** A catalog of three nodes, and a resolved table of three rows in
    which the ids first occur as 2, 1, 0 and every key occurs twice. *)
Definition nodesABC : gmap string Node :=
  <["A" := mkNode 0 "A" "#aaa" "0.5"]>
  (<["B" := mkNode 1 "B" "#bbb" "0.6"]>
  (<["C" := mkNode 2 "C" "#ccc" "0.7"]> ∅)).

Definition edges_mixed_resolved : DataFrame :=
  mkDF 3 (<["source" := [PStr "C"; PStr "B"; PStr "C"]]>
         (<["target" := [PStr "A"; PStr "A"; PStr "B"]]>
         (<["weight" := [PInt 4; PInt 5; PInt 6]]>
         (<["source_id" := [PInt 2; PInt 1; PInt 2]]>
         (<["target_id" := [PInt 0; PInt 0; PInt 1]]>
         (<["opacity" := [PFloat "0.7"; PFloat "0.6"; PFloat "0.7"]]>
         (<["color" := [PStr "#ccc"; PStr "#bbb"; PStr "#ccc"]]> ∅))))))).

(** The text for it: the nodes A, B, C (ids 0, 1, 2), then the three
    rows as they stand in the table. *)
Definition payload_mixed : string :=
  with_double_quotes
    ("{'nodes':[{'name':'A','color':'#aaa','opacity':0.5}, " +:+
     "{'name':'B','color':'#bbb','opacity':0.6}, " +:+
     "{'name':'C','color':'#ccc','opacity':0.7},], " +:+
     "'links':[{'source':2,'target':0,'value':4,'opacity':0.7,'color':'#ccc'}," +:+
     "{'source':1,'target':0,'value':5,'opacity':0.6,'color':'#bbb'}," +:+
     "{'source':2,'target':1,'value':6,'opacity':0.7,'color':'#ccc'}]}").

(** A table without the column [source], and a table without rows. *)
Definition edges_no_source : DataFrame :=
  mkDF 1 (<["target" := [PStr "B"]]> (<["weight" := [PInt 3]]> ∅)).

Definition edges_empty : DataFrame :=
  mkDF 0 (<["source" := []]> (<["target" := []]> (<["weight" := []]> ∅))).


(** * Properties *)

(** ** The monad *)

Lemma bind_return {A B} (m : M A) (f : A → M B) df df' a :
  m df = (df', Return a) → (m ≫= f) df = f a df'.
Proof. intros H. unfold mbind, M_bind. by rewrite H. Qed.

Lemma bind_raise {A B} (m : M A) (f : A → M B) df df' e :
  m df = (df', Raise e) → (m ≫= f) df = (df', Raise e).
Proof. intros H. unfold mbind, M_bind. by rewrite H. Qed.

Lemma writes_only_bind {A B} S (m : M A) (f : A → M B) :
  writes_only S m → (∀ a, writes_only S (f a)) → writes_only S (m ≫= f).
Proof.
  intros Hm Hf df. unfold mbind, M_bind.
  destruct (Hm df) as [Hn Hc].
  destruct (m df) as [df' [a|e]]; simpl in *; [|done].
  destruct (Hf a df') as [Hn' Hc']. split; [congruence|].
  intros c Hin. rewrite Hc', Hc; done.
Qed.

Lemma writes_only_pure {A} S (o : DataFrame → outcome A) :
  writes_only S (λ df, (df, o df)).
Proof. intros df. done. Qed.

Lemma writes_only_ret {A} S (a : A) : writes_only S (mret a).
Proof. apply (writes_only_pure S (λ _, Return a)). Qed.

Lemma writes_only_raise {A} S e : writes_only S (raise (A:=A) e).
Proof. apply (writes_only_pure S (λ _, Raise e)). Qed.

Lemma writes_only_lift {A} S (o : outcome A) : writes_only S (lift o).
Proof. apply (writes_only_pure S (λ _, o)). Qed.

Lemma writes_only_get_df S : writes_only S get_df.
Proof. apply (writes_only_pure S (λ df, Return df)). Qed.

Lemma writes_only_column S c : writes_only S (column c).
Proof. apply (writes_only_pure S (λ df, read_column df c)). Qed.

Lemma writes_only_assign_scalar S c v : c ∈ S → writes_only S (assign_scalar c v).
Proof.
  intros Hc df. split; [done|]. intros c' Hc'. simpl.
  apply lookup_insert_ne. intros ->. done.
Qed.

Lemma writes_only_assign_list S c vs : c ∈ S → writes_only S (assign_list c vs).
Proof.
  intros Hc df. unfold assign_list. case_bool_decide; [|done].
  split; [done|]. intros c' Hc'. simpl.
  apply lookup_insert_ne. intros ->. done.
Qed.

Lemma writes_only_loc_assign S which key c v :
  c ∈ S → writes_only S (loc_assign which key c v).
Proof.
  intros Hc. apply writes_only_bind; [apply writes_only_column|].
  intros keys df. split; [done|]. intros c' Hc'. simpl.
  apply lookup_insert_ne. intros ->. done.
Qed.

Lemma writes_only_for_each {A} S (l : list A) body :
  (∀ x, writes_only S (body x)) → writes_only S (for_each l body).
Proof.
  intros Hb. induction l as [|x l IH]; simpl.
  - apply writes_only_ret.
  - apply writes_only_bind; [apply Hb|]. intros _. apply IH.
Qed.

Lemma writes_only_copy_from_nodes S nodes which c field :
  c ∈ S → writes_only S (copy_from_nodes nodes which c field).
Proof.
  intros Hc. apply writes_only_for_each. intros key.
  apply writes_only_bind; [apply writes_only_lift|].
  intros n. by apply writes_only_loc_assign.
Qed.

Lemma writes_only_pre_processing S : writes_only S pre_processing.
Proof.
  apply writes_only_bind; [apply writes_only_get_df|]. intros df.
  destruct (_ && _); [apply writes_only_ret | apply writes_only_raise].
Qed.

Lemma writes_only_opacity_rules color opacity nodes :
  writes_only ["opacity"] (opacity_rules color opacity nodes).
Proof.
  apply writes_only_bind; [apply writes_only_get_df|]. intros df.
  destruct (_ && _); [apply writes_only_raise|].
  destruct (_ && _); [apply writes_only_ret|].
  assert (writes_only ["opacity"]
    match as_number opacity with
    | Some v => assign_scalar "opacity" v
    | None =>
        if isinstance_list color && bool_decide (py_len color = nrows df)
        then mret tt else assign_scalar "opacity" (PFloat "0.8")
    end) as Hrest.
  { destruct (as_number opacity).
    - apply writes_only_assign_scalar. set_solver.
    - destruct (_ && _); [apply writes_only_ret|].
      apply writes_only_assign_scalar. set_solver. }
  destruct nodes as [nodes|]; [|done].
  destruct (source_or_target opacity) as [which|]; [|done].
  apply writes_only_bind; [apply writes_only_assign_scalar; set_solver|].
  intros _. apply writes_only_copy_from_nodes. set_solver.
Qed.

Section ChordProperties.

Variable colourmap : string → list string → string → string.

Lemma writes_only_color_by_pair cmap :
  writes_only ["color"; "labels"] (color_by_pair colourmap cmap).
Proof.
  apply writes_only_bind; [apply writes_only_column|]. intros src.
  apply writes_only_bind; [apply writes_only_column|]. intros tgt.
  apply writes_only_bind; [apply writes_only_assign_list; set_solver|]. intros _.
  apply writes_only_bind; [apply writes_only_column|]. intros labels.
  apply writes_only_assign_list. set_solver.
Qed.

Lemma writes_only_color_rules color cmap nodes :
  writes_only ["color"; "labels"] (color_rules colourmap color cmap nodes).
Proof.
  apply writes_only_bind; [apply writes_only_get_df|]. intros df.
  destruct (_ && _); [apply writes_only_ret|].
  assert (writes_only ["color"; "labels"]
    (hex ← lift (hex_literal color);
     match hex with
     | Some s => assign_list "color" (replicate (nrows df) (PStr s))
     | None =>
         if isinstance_list color && bool_decide (py_len color = nrows df)
         then mret tt else color_by_pair colourmap cmap
     end)) as Hrest.
  { apply writes_only_bind; [apply writes_only_lift|]. intros [s|].
    - apply writes_only_assign_list. set_solver.
    - destruct (_ && _); [apply writes_only_ret|].
      apply writes_only_color_by_pair. }
  destruct nodes as [nodes|]; [|done].
  destruct (source_or_target color) as [which|]; [|done].
  apply writes_only_bind; [apply writes_only_assign_scalar; set_solver|].
  intros _. apply writes_only_copy_from_nodes. set_solver.
Qed.

(** What [set_edge_properties] does once the opacity rules have run. *)
Lemma set_edge_properties_after_opacity color opacity cmap nodes df df1 :
  opacity_rules color opacity nodes df = (df1, Return tt) →
  set_edge_properties colourmap color opacity cmap nodes df =
    (pre_processing ;; color_rules colourmap color cmap nodes) df1.
Proof. intros H. unfold set_edge_properties. by rewrite (bind_return _ _ _ _ _ H). Qed.

Lemma set_edge_properties_opacity_raises color opacity cmap nodes df df1 e :
  opacity_rules color opacity nodes df = (df1, Raise e) →
  set_edge_properties colourmap color opacity cmap nodes df = (df1, Raise e).
Proof. intros H. unfold set_edge_properties. by rewrite (bind_raise _ _ _ _ _ H). Qed.

(** The opacity column that [set_edge_properties] leaves is the one that
    the opacity rules leave: neither the pre-processing nor the color
    rules assign it. *)
Lemma opacity_column_settled color opacity cmap nodes df :
  columns (set_edge_properties colourmap color opacity cmap nodes df).1 !! "opacity" =
  columns (opacity_rules color opacity nodes df).1 !! "opacity".
Proof.
  destruct (opacity_rules color opacity nodes df) as [df1 [[]|e]] eqn:Hop.
  - rewrite (set_edge_properties_after_opacity _ _ _ _ _ _ Hop). simpl.
    assert (writes_only ["color"; "labels"]
              (pre_processing ;; color_rules colourmap color cmap nodes)) as Hw.
    { apply writes_only_bind; [apply writes_only_pre_processing|].
      intros _. apply writes_only_color_rules. }
    apply (Hw df1). rewrite !not_elem_of_cons. repeat split; [done..|apply not_elem_of_nil].
  - by rewrite (set_edge_properties_opacity_raises _ _ _ _ _ _ _ Hop).
Qed.

(** ** Size mismatch of a per-row opacity *)

(** C7. A per-row opacity sequence whose length is not the row count
    makes [set_edge_properties] raise the size-mismatch exception of
    line 66, whatever the color argument, the palette and the node
    catalog are; the table is left as it was. *)
Theorem opacity_size_mismatch_raises (df : DataFrame) (l : list pyval)
    (color : pyarg) (cmap : string) (nodes : option (gmap string Node)) :
  length l ≠ nrows df →
  set_edge_properties colourmap color (Many l) cmap nodes df =
    (df, Raise ConfigurationError).
Proof.
  intros Hlen. apply set_edge_properties_opacity_raises.
  unfold opacity_rules. rewrite (bind_return get_df _ df df df) by done.
  simpl. rewrite bool_decide_eq_false_2 by done. done.
Qed.

(** ** The loop over the catalog *)

Lemma from_nodes_nil nodes field keys old :
  length keys = length old →
  zip_with (from_nodes nodes field []) keys old = old.
Proof.
  revert old. induction keys as [|k keys IH]; intros [|o old] Hlen; try done.
  simpl in *. f_equal; [|apply IH; lia].
  by destruct k.
Qed.

Lemma from_nodes_cons nodes field k n rest keys old :
  nodes !! k = Some n →
  zip_with (from_nodes nodes field rest) keys
    (overwrite (is_key k <$> keys) (field n) old) =
  zip_with (from_nodes nodes field (k :: rest)) keys old.
Proof.
  intros Hk. revert old. induction keys as [|cell keys IH]; intros [|o old]; try done.
  simpl. f_equal; [|apply IH].
  unfold is_key. case_bool_decide as Hcell.
  - subst cell. simpl. rewrite Hk.
    rewrite (bool_decide_eq_true_2 (k ∈ k :: rest)) by apply list_elem_of_here.
    by case_bool_decide.
  - destruct cell as [| | | |s]; try done. simpl.
    assert (s ≠ k) by congruence.
    destruct (decide (s ∈ rest)) as [Hin|Hin].
    + rewrite !bool_decide_eq_true_2; [done| |done]. by apply list_elem_of_further.
    + rewrite !bool_decide_eq_false_2; [done| |done].
      rewrite elem_of_cons. by intros [?|?].
Qed.

Lemma overwrite_length mask v old :
  length mask = length old → length (overwrite mask v old) = length old.
Proof. intros H. unfold overwrite. rewrite length_zip_with. lia. Qed.

Lemma for_each_copy nodes which c field ks :
  c ≠ which →
  (∀ k, k ∈ ks → is_Some (nodes !! k)) →
  ∀ df keys old,
    columns df !! which = Some keys →
    columns df !! c = Some old →
    length keys = length old →
    for_each ks (λ key,
        n ← lift (subscript (nodes !! key));
        loc_assign which key c (field n)) df =
      (mkDF (nrows df)
         (<[c := zip_with (from_nodes nodes field ks) keys old]> (columns df)),
       Return tt).
Proof.
  intros Hne. induction ks as [|k rest IH]; intros Hks df keys old Hw Hc Hlen.
  - simpl. rewrite from_nodes_nil by done. rewrite insert_id by done.
    by destruct df.
  - destruct (Hks k) as [n Hn]; [apply list_elem_of_here|].
    simpl.
    set (df2 := mkDF (nrows df)
      (<[c := overwrite (is_key k <$> keys) (field n) old]> (columns df))).
    assert ((n ← lift (subscript (nodes !! k)); loc_assign which k c (field n)) df
            = (df2, Return tt)) as Hbody.
    { rewrite (bind_return _ _ df df n) by (unfold lift; by rewrite Hn).
      unfold loc_assign.
      rewrite (bind_return _ _ df df keys)
        by (unfold column, read_column; by rewrite Hw).
      unfold modify, df2. by rewrite Hc. }
    rewrite (bind_return _ _ _ _ _ Hbody).
    rewrite (IH (λ k' Hk', Hks k' (list_elem_of_further _ _ _ Hk')) df2 keys
               (overwrite (is_key k <$> keys) (field n) old)).
    + unfold df2. simpl. rewrite insert_insert_eq.
      by rewrite (from_nodes_cons _ _ _ _ _ _ _ Hn).
    + unfold df2. simpl. by rewrite lookup_insert_ne.
    + unfold df2. simpl. by rewrite lookup_insert_eq.
    + rewrite overwrite_length; [done|]. by rewrite length_fmap.
Qed.

Lemma elem_of_dict_keys (nodes : gmap string Node) k :
  k ∈ dict_keys nodes ↔ is_Some (nodes !! k).
Proof.
  unfold dict_keys. rewrite list_elem_of_fmap. split.
  - intros [[k' n] [-> Hin]]. apply elem_of_map_to_list in Hin. by exists n.
  - intros [n Hn]. exists (k, n). split; [done|]. by apply elem_of_map_to_list.
Qed.

Lemma from_nodes_all_keys nodes field keys (v : pyval) :
  zip_with (from_nodes nodes field (dict_keys nodes)) keys (replicate (length keys) v) =
  (λ cell, match dict_get nodes cell with Some n => field n | None => v end) <$> keys.
Proof.
  induction keys as [|cell keys IH]; [done|]. simpl. f_equal; [|apply IH].
  destruct cell as [| | | |s]; try done. simpl.
  destruct (nodes !! s) as [n|] eqn:Hs.
  - rewrite bool_decide_eq_true_2; [done|]. apply elem_of_dict_keys. by exists n.
  - by case_bool_decide.
Qed.

Lemma well_formed_length df c col :
  well_formed df = true → columns df !! c = Some col → length col = nrows df.
Proof.
  unfold well_formed. rewrite forallb_forall. intros Hwf Hc.
  specialize (Hwf (c, col)). rewrite bool_decide_eq_true in Hwf.
  apply Hwf, list_elem_of_In. by apply elem_of_map_to_list.
Qed.

(** The column that lines 74-76 and 98-100 produce: the default
    everywhere, then the field of the node wherever the key cell is a
    key of the catalog. *)
Lemma default_then_copy nodes which c field v df keys :
  c ≠ which →
  well_formed df = true →
  columns df !! which = Some keys →
  (assign_scalar c v ;; copy_from_nodes nodes which c field) df =
    (mkDF (nrows df)
       (<[c := (λ cell, match dict_get nodes cell with
                        | Some n => field n
                        | None => v
                        end) <$> keys]> (columns df)),
     Return tt).
Proof.
  intros Hne Hwf Hw.
  pose proof (well_formed_length _ _ _ Hwf Hw) as Hlen.
  rewrite (bind_return _ _ df
    (mkDF (nrows df) (<[c := replicate (nrows df) v]> (columns df))) tt) by done.
  unfold copy_from_nodes.
  rewrite (for_each_copy nodes which c field (dict_keys nodes) Hne
             (λ k Hk, proj1 (elem_of_dict_keys nodes k) Hk) _ keys
             (replicate (nrows df) v)); simpl.
  - rewrite insert_insert_eq. rewrite <- Hlen. by rewrite from_nodes_all_keys.
  - by rewrite lookup_insert_ne.
  - by rewrite lookup_insert_eq.
  - by rewrite length_replicate.
Qed.

(** ** Opacity taken from the nodes *)

(** C4. With a node catalog and [opacity] set to ["source"] (resp.
    ["target"]), the opacity rules return, and the opacity of each row
    is the opacity of the node under the row's source (resp. target)
    where this cell is a key of the catalog, and 0.8 where it is not;
    the later steps of [set_edge_properties] leave the column so,
    whatever the color argument is. *)
Theorem opacity_follows_the_endpoint (df : DataFrame) (which : string)
    (nodes : gmap string Node) (color : pyarg) (cmap : string)
    (keys : list pyval) :
  which = "source" ∨ which = "target" →
  well_formed df = true →
  columns df !! which = Some keys →
  (∃ df1, opacity_rules color (One (PStr which)) (Some nodes) df = (df1, Return tt)) ∧
  columns (set_edge_properties colourmap color (One (PStr which)) cmap
             (Some nodes) df).1 !! "opacity" =
    Some ((λ cell, match dict_get nodes cell with
                   | Some n => PFloat (node_opacity n)
                   | None => PFloat "0.8"
                   end) <$> keys).
Proof.
  intros Hwhich Hwf Hkeys.
  assert ("opacity" ≠ which) as Hne by (destruct Hwhich; by subst).
  assert (opacity_rules color (One (PStr which)) (Some nodes) df =
          (assign_scalar "opacity" (PFloat "0.8") ;;
           copy_from_nodes nodes which "opacity" (λ n, PFloat (node_opacity n))) df)
    as Hrule.
  { unfold opacity_rules. rewrite (bind_return get_df _ df df df) by done.
    simpl. by rewrite (bool_decide_eq_true_2 _ Hwhich). }
  rewrite opacity_column_settled, Hrule.
  rewrite (default_then_copy _ _ _ _ _ _ _ Hne Hwf Hkeys). simpl.
  split; [by eexists|]. by rewrite lookup_insert_eq.
Qed.

(** ** A per-row color with no opacity rule *)

(** C9. When [color] is a sequence with one entry per row and [opacity]
    is neither a sequence, nor None over a table that has an opacity
    column, nor ["source"] or ["target"] with a catalog, nor a number,
    [set_edge_properties] leaves the opacity column as it found it (an
    absent column stays absent). *)
Theorem color_sequence_leaves_opacity (df : DataFrame) (l : list pyval)
    (opacity : pyarg) (cmap : string) (nodes : option (gmap string Node)) :
  length l = nrows df →
  isinstance_list opacity = false →
  is_None opacity && has_column "opacity" df = false →
  nodes = None ∨ source_or_target opacity = None →
  as_number opacity = None →
  columns (set_edge_properties colourmap (Many l) opacity cmap nodes df).1 !! "opacity" =
    columns df !! "opacity".
Proof.
  intros Hlen Hlist Hnone Hnodes Hnum.
  rewrite opacity_column_settled.
  assert (opacity_rules (Many l) opacity nodes df = (df, Return tt)) as ->; [|done].
  unfold opacity_rules. rewrite (bind_return get_df _ df df df) by done.
  rewrite Hlist, Hnone. simpl. rewrite Hnum.
  rewrite (bool_decide_eq_true_2 _ Hlen).
  destruct Hnodes as [-> | ->]; [done|]. by destruct nodes.
Qed.

(** ** A per-row opacity of the right length *)

(** A per-row opacity with one entry per row is not assigned: the opacity
    column is left untouched if [color] is a sequence with one entry per
    row too, and is 0.8 in every row otherwise. *)
Lemma per_row_opacity_not_assigned (df : DataFrame) (l : list pyval)
    (color : pyarg) (nodes : option (gmap string Node)) :
  length l = nrows df →
  opacity_rules color (Many l) nodes df =
    if isinstance_list color && bool_decide (py_len color = nrows df)
    then (df, Return tt)
    else (mkDF (nrows df)
            (<["opacity" := replicate (nrows df) (PFloat "0.8")]> (columns df)),
          Return tt).
Proof.
  intros Hlen. unfold opacity_rules.
  rewrite (bind_return get_df _ df df df) by done.
  simpl. rewrite (bool_decide_eq_true_2 _ Hlen). simpl.
  destruct nodes; by destruct (_ && _).
Qed.

(** ** Missing columns *)

Lemma has_column_after_opacity color opacity nodes df c :
  c ≠ "opacity" →
  has_column c (opacity_rules color opacity nodes df).1 = has_column c df.
Proof.
  intros Hc. unfold has_column.
  destruct (writes_only_opacity_rules color opacity nodes df) as [_ H].
  rewrite H; [done|]. rewrite not_elem_of_cons. split; [done|apply not_elem_of_nil].
Qed.

(** C6, as the code has it. The opacity rules run before the
    pre-processing. For a table that lacks [source], [target] or
    [weight], once the opacity rules have returned,
    [set_edge_properties] raises [SchemaError] and the color rules do
    not run: the table at the failure is the one that the opacity rules
    left, which differs from the input in the opacity column at most. *)
Theorem missing_column_raises_after_opacity (df df1 : DataFrame)
    (color opacity : pyarg) (cmap : string) (nodes : option (gmap string Node)) :
  has_column "source" df && has_column "target" df && has_column "weight" df = false →
  opacity_rules color opacity nodes df = (df1, Return tt) →
  set_edge_properties colourmap color opacity cmap nodes df = (df1, Raise SchemaError) ∧
  ∀ c, c ≠ "opacity" → columns df1 !! c = columns df !! c.
Proof.
  intros Hmiss Hop. split.
  - rewrite (set_edge_properties_after_opacity _ _ _ _ _ _ Hop).
    pose proof (has_column_after_opacity color opacity nodes df) as Hsame.
    rewrite Hop in Hsame. simpl in Hsame.
    assert (pre_processing df1 = (df1, Raise SchemaError)) as Hpre.
    { unfold pre_processing. rewrite (bind_return get_df _ df1 df1 df1) by done.
      rewrite !Hsame by done. by rewrite Hmiss. }
    by rewrite (bind_raise _ _ _ _ _ Hpre).
  - intros c Hc.
    destruct (writes_only_opacity_rules color opacity nodes df) as [_ H].
    rewrite Hop in H. apply H.
    rewrite not_elem_of_cons. split; [done|apply not_elem_of_nil].
Qed.

(** ** Colors by (source, target) pair *)

Lemma bind_inv {A B} (m : M A) (f : A → M B) df df' b :
  (m ≫= f) df = (df', Return b) →
  ∃ a df1, m df = (df1, Return a) ∧ f a df1 = (df', Return b).
Proof.
  unfold mbind, M_bind. destruct (m df) as [df1 [a|e]]; [|done].
  intros H. by exists a, df1.
Qed.

Lemma pair_compare_eq p q : pair_compare p q = Eq → p = q.
Proof.
  destruct p as [p1 p2], q as [q1 q2]. unfold pair_compare. simpl.
  destruct (String.compare p1 q1) eqn:H1; try done.
  intros H2. apply String.compare_eq_iff in H1, H2. by subst.
Qed.

Lemma elem_of_insert_unique p q l :
  q = p ∨ q ∈ l → q ∈ insert_unique p l.
Proof.
  induction l as [|r l IH]; simpl.
  - intros [->|H]; [apply list_elem_of_here | by apply elem_of_nil in H].
  - destruct (pair_compare p r) eqn:Hc.
    + apply pair_compare_eq in Hc as ->. by intros [->|H]; [apply list_elem_of_here|].
    + intros [->|H]; [apply list_elem_of_here | by apply list_elem_of_further].
    + intros [->|H].
      * apply list_elem_of_further, IH. by left.
      * apply elem_of_cons in H as [->|H]; [apply list_elem_of_here|].
        apply list_elem_of_further, IH. by right.
Qed.

(** Every row is one of the unique rows. *)
Lemma elem_of_groupby p pairs :
  p ∈ pairs → p ∈ groupby_source_target pairs.
Proof.
  unfold groupby_source_target. induction pairs as [|q pairs IH]; [done|].
  intros [->|H]%elem_of_cons; simpl; apply elem_of_insert_unique; auto.
Qed.

Lemma row_index_found u p : p ∈ u → is_Some (row_index u p).
Proof.
  intros H. unfold row_index.
  destruct (list_find_elem_of (λ q, q = p) u p H eq_refl) as [x ->]. by eexists.
Qed.

Lemma omap_total {A B} (f : A → option B) (l : list A) :
  (∀ x, x ∈ l → is_Some (f x)) →
  Forall2 (λ x y, f x = Some y) l (omap f l).
Proof.
  induction l as [|x l IH]; intros H; simpl; [constructor|].
  destruct (H x) as [y Hy]; [apply list_elem_of_here|]. rewrite Hy.
  constructor; [done|]. apply IH. intros z Hz. by apply H, list_elem_of_further.
Qed.

(** [ismember] finds every row of the table among its own unique rows. *)
Lemma ismember_rows_groupby d :
  Forall2 (λ p i, row_index (groupby_source_target d) p = Some i)
    d (ismember_rows d (groupby_source_target d)).
Proof.
  apply omap_total. intros p Hp. by apply row_index_found, elem_of_groupby.
Qed.

Lemma color_by_pair_run cmap df src tgt :
  columns df !! "source" = Some src →
  columns df !! "target" = Some tgt →
  color_by_pair colourmap cmap df =
    let d := row_keys src tgt in
    let labels := (λ i, PInt (Z.of_nat i)) <$> ismember_rows d (groupby_source_target d) in
    if bool_decide (length d = nrows df)
    then (mkDF (nrows df)
            (<["color" := pair_colors colourmap cmap src tgt]>
               (<["labels" := labels]> (columns df))),
          Return tt)
    else (df, Raise ValueError).
Proof.
  intros Hs Ht. unfold color_by_pair.
  rewrite (bind_return _ _ df df src) by (unfold column, read_column; by rewrite Hs).
  rewrite (bind_return _ _ df df tgt) by (unfold column, read_column; by rewrite Ht).
  simpl.
  pose proof (Forall2_length _ _ _ (ismember_rows_groupby (row_keys src tgt))) as Hlen.
  set (d := row_keys src tgt) in *.
  set (labels := (λ i, PInt (Z.of_nat i)) <$> ismember_rows d (groupby_source_target d)).
  assert (length labels = length d) as Hlab
    by (unfold labels; rewrite length_fmap; lia).
  case_bool_decide as Hn.
  - set (df2 := mkDF (nrows df) (<["labels" := labels]> (columns df))).
    rewrite (bind_return _ _ df df2 tt).
    2:{ unfold assign_list. rewrite bool_decide_eq_true_2 by lia. done. }
    rewrite (bind_return _ _ df2 df2 labels).
    2:{ unfold column, read_column, df2. simpl. by rewrite lookup_insert_eq. }
    unfold assign_list. rewrite bool_decide_eq_true_2; [done|].
    unfold set_colors. rewrite !length_fmap. simpl. lia.
  - apply bind_raise. unfold assign_list. rewrite bool_decide_eq_false_2; [done|]. lia.
Qed.

Lemma pair_colors_length cmap src tgt :
  length (pair_colors colourmap cmap src tgt) = length (row_keys src tgt).
Proof.
  unfold pair_colors, set_colors. rewrite !length_fmap.
  symmetry. apply (Forall2_length _ _ _ (ismember_rows_groupby _)).
Qed.

(** Two rows with the same source and the same target have the same
    label, hence the same color. *)
Lemma pair_colors_same_pair cmap src tgt i j :
  i < length (row_keys src tgt) →
  src !! i = src !! j → tgt !! i = tgt !! j →
  pair_colors colourmap cmap src tgt !! i = pair_colors colourmap cmap src tgt !! j.
Proof.
  intros Hi Hs Ht.
  assert (row_keys src tgt !! i = row_keys src tgt !! j) as Hd.
  { unfold row_keys. rewrite !lookup_zip_with, !list_lookup_fmap. by rewrite Hs, Ht. }
  destruct (lookup_lt_is_Some_2 _ _ Hi) as [p Hp].
  pose proof (ismember_rows_groupby (row_keys src tgt)) as Hall.
  destruct (Forall2_lookup_l _ _ _ _ _ Hall Hp) as (k & Hk & Hfound).
  rewrite Hd in Hp.
  destruct (Forall2_lookup_l _ _ _ _ _ Hall Hp) as (k' & Hk' & Hfound').
  assert (k' = k) as -> by congruence.
  unfold pair_colors, set_colors. rewrite !list_lookup_fmap.
  by rewrite Hk, Hk'.
Qed.

Lemma pre_processing_inv df df' a :
  pre_processing df = (df', Return a) →
  df' = df ∧ has_column "source" df = true ∧ has_column "target" df = true ∧
  has_column "weight" df = true.
Proof.
  unfold pre_processing. rewrite (bind_return get_df _ df df df) by done.
  destruct (has_column "source" df), (has_column "target" df),
    (has_column "weight" df); simpl; try done.
  intros [= <- _]. done.
Qed.

Lemma has_column_lookup c df :
  has_column c df = true → ∃ col, columns df !! c = Some col.
Proof. unfold has_column. rewrite bool_decide_eq_true. by intros [col ?]; exists col. Qed.

(** C3. With [color] None and no color column in the table, whenever
    [set_edge_properties] returns, every row has a color, and two rows
    that have the same source and the same target have the same color,
    whatever their weights are and whatever the color map of the
    palette is. *)
Theorem same_pair_same_color (df df' : DataFrame) (opacity : pyarg)
    (cmap : string) (nodes : option (gmap string Node)) :
  has_column "color" df = false →
  set_edge_properties colourmap (One PNone) opacity cmap nodes df = (df', Return tt) →
  ∃ src tgt colors,
    columns df !! "source" = Some src ∧ columns df !! "target" = Some tgt ∧
    columns df' !! "source" = Some src ∧ columns df' !! "target" = Some tgt ∧
    columns df' !! "color" = Some colors ∧
    length colors = nrows df ∧
    ∀ i j, i < nrows df → j < nrows df →
      src !! i = src !! j → tgt !! i = tgt !! j →
      colors !! i = colors !! j.
Proof.
  intros Hnocolor Hrun. unfold set_edge_properties in Hrun.
  apply bind_inv in Hrun as ([] & df1 & Hop & Hrun).
  apply bind_inv in Hrun as ([] & df2 & Hpre & Hcol).
  apply pre_processing_inv in Hpre as (-> & Hs & Ht & _).
  destruct (writes_only_opacity_rules (One PNone) opacity nodes df) as [Hn Hframe].
  rewrite Hop in Hn, Hframe. simpl in Hn, Hframe.
  assert (∀ c, c ≠ "opacity" → columns df1 !! c = columns df !! c) as Hsame.
  { intros c Hc. apply Hframe. rewrite not_elem_of_cons.
    split; [done|apply not_elem_of_nil]. }
  apply has_column_lookup in Hs as [src Hs], Ht as [tgt Ht].
  assert (color_rules colourmap (One PNone) cmap nodes df1 =
          color_by_pair colourmap cmap df1) as Hfall.
  { unfold color_rules. rewrite (bind_return get_df _ df1 df1 df1) by done.
    assert (has_column "color" df1 = false) as ->.
    { unfold has_column in *. by rewrite Hsame. }
    simpl. by destruct nodes. }
  rewrite Hfall, (color_by_pair_run cmap df1 src tgt Hs Ht) in Hcol. simpl in Hcol.
  case_bool_decide as Hlen; [|done]. injection Hcol as <-.
  exists src, tgt, (pair_colors colourmap cmap src tgt). simpl.
  rewrite <- !Hsame by done.
  repeat split; try done.
  - by rewrite lookup_insert_ne, lookup_insert_ne.
  - by rewrite lookup_insert_ne, lookup_insert_ne.
  - by rewrite lookup_insert_eq.
  - rewrite pair_colors_length. congruence.
  - intros i j Hi Hj. apply pair_colors_same_pair. lia.
Qed.

Lemma source_or_target_some a which :
  source_or_target a = Some which → which = "source" ∨ which = "target".
Proof.
  destruct a as [[| | | |s]|]; try done. simpl.
  case_bool_decide; [|done]. by intros [= <-].
Qed.

(** The opacity rules return unless a per-row opacity has the wrong
    length, on a well-formed table with both endpoint columns. *)
Lemma opacity_rules_returns color opacity nodes df src tgt :
  well_formed df = true →
  columns df !! "source" = Some src → columns df !! "target" = Some tgt →
  isinstance_list opacity && negb (bool_decide (py_len opacity = nrows df)) = false →
  ∃ df1, opacity_rules color opacity nodes df = (df1, Return tt).
Proof.
  intros Hwf Hs Ht Hsize. unfold opacity_rules.
  rewrite (bind_return get_df _ df df df) by done. rewrite Hsize.
  destruct (is_None opacity && _); [by eexists|].
  assert (∃ df1,
    match as_number opacity with
    | Some v => assign_scalar "opacity" v
    | None =>
        if isinstance_list color && bool_decide (py_len color = nrows df)
        then mret tt else assign_scalar "opacity" (PFloat "0.8")
    end df = (df1, Return tt)) as Hrest.
  { destruct (as_number opacity); [by eexists|].
    destruct (isinstance_list color && _); by eexists. }
  destruct nodes as [nodes|]; [|done].
  destruct (source_or_target opacity) as [which|] eqn:Hwhich; [|done].
  apply source_or_target_some in Hwhich as [-> | ->].
  - rewrite (default_then_copy nodes "source" "opacity" _ _ df src); by eauto.
  - rewrite (default_then_copy nodes "target" "opacity" _ _ df tgt); by eauto.
Qed.

(** The call returns for every well-formed table with the three
    required columns and no color column, when [color] is None and
    [opacity] is not a sequence of the wrong length. *)
Lemma set_edge_properties_returns opacity cmap nodes df src tgt :
  well_formed df = true →
  columns df !! "source" = Some src → columns df !! "target" = Some tgt →
  has_column "weight" df = true →
  has_column "color" df = false →
  isinstance_list opacity && negb (bool_decide (py_len opacity = nrows df)) = false →
  ∃ df', set_edge_properties colourmap (One PNone) opacity cmap nodes df =
           (df', Return tt).
Proof.
  intros Hwf Hs Ht Hw Hnocolor Hsize.
  destruct (opacity_rules_returns (One PNone) opacity nodes df src tgt)
    as [df1 Hop]; try done.
  rewrite (set_edge_properties_after_opacity _ _ _ _ _ _ Hop).
  destruct (writes_only_opacity_rules (One PNone) opacity nodes df) as [Hn Hframe].
  rewrite Hop in Hn, Hframe. simpl in Hn, Hframe.
  assert (∀ c, c ≠ "opacity" → columns df1 !! c = columns df !! c) as Hsame.
  { intros c Hc. apply Hframe. rewrite not_elem_of_cons.
    split; [done|apply not_elem_of_nil]. }
  assert (∀ c, c ≠ "opacity" → has_column c df1 = has_column c df) as Hhas.
  { intros c Hc. unfold has_column. by rewrite Hsame. }
  assert (pre_processing df1 = (df1, Return tt)) as Hpre.
  { unfold pre_processing. rewrite (bind_return get_df _ df1 df1 df1) by done.
    rewrite !Hhas by done. unfold has_column at 1 2. by rewrite Hs, Ht, Hw. }
  rewrite (bind_return _ _ _ _ _ Hpre).
  unfold color_rules. rewrite (bind_return get_df _ df1 df1 df1) by done.
  rewrite Hhas, Hnocolor by done. simpl.
  assert (color_by_pair colourmap cmap df1 =
          (mkDF (nrows df1)
             (<["color" := pair_colors colourmap cmap src tgt]>
                (<["labels" := (λ i, PInt (Z.of_nat i)) <$>
                     ismember_rows (row_keys src tgt)
                       (groupby_source_target (row_keys src tgt))]>
                   (columns df1))),
           Return tt)) as Hcol.
  { rewrite (color_by_pair_run cmap df1 src tgt) by (by rewrite Hsame). simpl.
    rewrite bool_decide_eq_true_2; [done|].
    unfold row_keys. rewrite length_zip_with, !length_fmap.
    rewrite (well_formed_length _ _ _ Hwf Hs), (well_formed_length _ _ _ Hwf Ht). lia. }
  destruct nodes; rewrite (bind_return _ _ df1 df1 None) by done;
    rewrite Hcol; by eexists.
Qed.

End ChordProperties.

(** ** [np.unique] *)

Lemma elem_of_insert_first v i acc w j :
  (w, j) ∈ insert_first v i acc → (w, j) = (v, i) ∨ (w, j) ∈ acc.
Proof.
  induction acc as [|[u k] acc IH]; simpl.
  - intros H%list_elem_of_singleton. by left.
  - destruct (v ?= u)%Z.
    + by right.
    + intros [H|H]%elem_of_cons; [by left | by right].
    + intros [H|H]%elem_of_cons.
      * right. rewrite H. apply list_elem_of_here.
      * destruct (IH H) as [?|?]; [by left|]. right. by apply list_elem_of_further.
Qed.

Lemma insert_first_values v i acc w :
  w ∈ (insert_first v i acc).*1 ↔ w = v ∨ w ∈ acc.*1.
Proof.
  induction acc as [|[u k] acc IH]; simpl.
  - rewrite list_elem_of_singleton. split; [by left|]. intros [?|H]; [done|].
    by apply elem_of_nil in H.
  - destruct (Z.compare_spec v u) as [->| |]; simpl.
    + rewrite elem_of_cons. tauto.
    + rewrite !elem_of_cons. simpl. tauto.
    + rewrite !elem_of_cons, IH. tauto.
Qed.

Lemma insert_first_sorted v i acc :
  StronglySorted Z.lt acc.*1 → StronglySorted Z.lt (insert_first v i acc).*1.
Proof.
  induction acc as [|[u k] acc IH]; simpl; intros Hs.
  - repeat constructor.
  - apply StronglySorted_inv in Hs as [Hs Hall].
    rewrite Forall_forall in Hall.
    destruct (Z.compare_spec v u) as [->| |]; simpl.
    + constructor; [done|]. by apply Forall_forall.
    + constructor; [by constructor; [|apply Forall_forall]|].
      constructor; [done|]. apply Forall_forall. intros x Hx.
      specialize (Hall x Hx). lia.
    + constructor; [by apply IH|]. apply Forall_forall. intros x Hx.
      apply insert_first_values in Hx as [->|Hx]; [lia|]. by apply Hall.
Qed.

Lemma unique_scan_sorted l : ∀ i acc,
  StronglySorted Z.lt acc.*1 → StronglySorted Z.lt (unique_scan i l acc).*1.
Proof.
  induction l as [|v l IH]; intros i acc Hs; simpl; [done|].
  by apply IH, insert_first_sorted.
Qed.

Lemma unique_scan_values l : ∀ i acc w,
  w ∈ (unique_scan i l acc).*1 ↔ w ∈ l ∨ w ∈ acc.*1.
Proof.
  induction l as [|v l IH]; intros i acc w; simpl.
  - split; [by right|]. intros [H|H]; [by apply elem_of_nil in H | done].
  - rewrite IH, insert_first_values, elem_of_cons. tauto.
Qed.

Lemma unique_scan_lookup (l0 : list Z) l : ∀ i acc,
  (∀ k v, l !! k = Some v → l0 !! (i + k) = Some v) →
  (∀ w j, (w, j) ∈ acc → l0 !! j = Some w) →
  ∀ w j, (w, j) ∈ unique_scan i l acc → l0 !! j = Some w.
Proof.
  induction l as [|v l IH]; intros i acc Hl Hacc w j; simpl; [apply Hacc|].
  apply IH.
  - intros k u Hk. replace (S i + k) with (i + S k) by lia. by apply Hl.
  - intros u k [[= -> ->]|H]%elem_of_insert_first; [|by apply Hacc].
    specialize (Hl 0 v eq_refl). by rewrite Nat.add_0_r in Hl.
Qed.

(** The values come out in strictly increasing order. *)
Lemma np_unique_sorted l : StronglySorted Z.lt (np_unique l).*1.
Proof. apply unique_scan_sorted. constructor. Qed.

(** They are the values of the array. *)
Lemma np_unique_values l w : w ∈ (np_unique l).*1 ↔ w ∈ l.
Proof.
  unfold np_unique. rewrite unique_scan_values. split; [|by left].
  intros [H|H]; [done | by apply elem_of_nil in H].
Qed.

(** Each index points at its value. *)
Lemma np_unique_lookup l w j : (w, j) ∈ np_unique l → l !! j = Some w.
Proof.
  apply (unique_scan_lookup l l 0 []); [done|].
  intros u k H. by apply elem_of_nil in H.
Qed.

Lemma strictly_sorted_NoDup (l : list Z) : StronglySorted Z.lt l → NoDup l.
Proof.
  induction 1 as [|x l Hs IH Hall]; constructor; [|done].
  rewrite Forall_forall in Hall. intros Hx. specialize (Hall x Hx). lia.
Qed.

(** ** Lists built by functions that may raise *)

Lemma map_raising_return {A B} (f : A → outcome B) l ys :
  map_raising f l = Return ys → Forall2 (λ x y, f x = Return y) l ys.
Proof.
  revert ys. induction l as [|x l IH]; intros ys; simpl.
  - intros [= <-]. constructor.
  - destruct (f x) as [y|e] eqn:Hx; [|done]. simpl.
    destruct (map_raising f l) as [ys'|e]; [|done]. simpl.
    intros [= <-]. constructor; [done|]. by apply IH.
Qed.

Lemma map_raising_total {A B} (f : A → outcome B) l :
  (∀ x, x ∈ l → ∃ y, f x = Return y) → ∃ ys, map_raising f l = Return ys.
Proof.
  induction l as [|x l IH]; intros H; simpl; [by eexists|].
  destruct (H x) as [y ->]; [apply list_elem_of_here|].
  destruct IH as [ys ->]; [|by eexists].
  intros z Hz. by apply H, list_elem_of_further.
Qed.

Lemma map_raising_raise {A B} (f : A → outcome B) l e :
  map_raising f l = Raise e → ∃ x, x ∈ l ∧ f x = Raise e.
Proof.
  induction l as [|x l IH]; simpl; [done|].
  destruct (f x) as [y|e'] eqn:Hx; simpl.
  - destruct (map_raising f l) as [ys|e']; [done|]. simpl. intros [= ->].
    destruct IH as (z & Hz & Hfz); [done|]. exists z. split; [|done].
    by apply list_elem_of_further.
  - intros [= ->]. exists x. split; [apply list_elem_of_here | done].
Qed.

(** ** Reading a field of the nodes of a column *)

Lemma node_fields_return {A} df labels (field : Node → A) c xs :
  node_fields df labels field c = Return xs →
  ∃ col, columns df !! c = Some col ∧
    Forall2 (λ cell x, ∃ n, dict_get labels cell = Some n ∧ x = field n) col xs.
Proof.
  unfold node_fields, read_column. destruct (columns df !! c) as [col|]; [|done].
  simpl. intros H%map_raising_return. exists col. split; [done|].
  eapply Forall2_impl; [done|]. intros cell x. simpl.
  destruct (dict_get labels cell) as [n|]; [|done]. simpl.
  intros [= <-]. by exists n.
Qed.

Lemma node_fields_total {A} df labels (field : Node → A) c col :
  columns df !! c = Some col →
  (∀ cell, cell ∈ col → is_Some (dict_get labels cell)) →
  ∃ xs, node_fields df labels field c = Return xs.
Proof.
  intros Hc Hall. unfold node_fields, read_column. rewrite Hc. simpl.
  apply map_raising_total. intros cell Hcell.
  destruct (Hall cell Hcell) as [n ->]. by eexists.
Qed.

(** A cell that is not a key of the catalog makes the lookup raise. *)
Lemma node_fields_missing {A} df labels (field : Node → A) c col cell :
  columns df !! c = Some col →
  cell ∈ col → dict_get labels cell = None →
  node_fields df labels field c = Raise TypeError.
Proof.
  intros Hc Hcell Hnone.
  destruct (node_fields df labels field c) as [xs|e] eqn:Hf.
  - apply node_fields_return in Hf as (col' & Hc' & Hall).
    assert (col' = col) as -> by congruence.
    apply list_elem_of_lookup in Hcell as [i Hi].
    destruct (Forall2_lookup_l _ _ _ _ _ Hall Hi) as (x & _ & n & Hn & _).
    congruence.
  - f_equal. unfold node_fields, read_column in Hf. rewrite Hc in Hf. simpl in Hf.
    apply map_raising_raise in Hf as (x & _ & Hx).
    destruct (dict_get labels x); simpl in Hx; congruence.
Qed.

Lemma node_fields_raise {A} df labels (field : Node → A) c col e :
  columns df !! c = Some col →
  node_fields df labels field c = Raise e → e = TypeError.
Proof.
  intros Hc Hf. unfold node_fields, read_column in Hf. rewrite Hc in Hf. simpl in Hf.
  apply map_raising_raise in Hf as (x & _ & Hx).
  destruct (dict_get labels x); simpl in Hx; congruence.
Qed.

(** ** Id resolution in [show] *)

(** C8. When a source or a target of the table is not a key of the
    catalog, [show] raises at the lookup of its id ([labels.get] gives
    None and the subscript fails): no id is put in its place. The table
    is as it was, up to the column [source_id], which is assigned only
    when every source is a key. *)
Theorem show_unknown_key_raises (df : DataFrame) (labels : gmap string Node)
    (src tgt : list pyval) (cell : pyval) :
  well_formed df = true →
  columns df !! "source" = Some src →
  columns df !! "target" = Some tgt →
  cell ∈ src ++ tgt →
  dict_get labels cell = None →
  ∃ df', show labels df = (df', Raise LookupError) ∧
         (∀ c, c ≠ "source_id" → columns df' !! c = columns df !! c) ∧
         (cell ∈ src → df' = df).
Proof.
  intros Hwf Hs Ht Hcell Hnone. unfold show.
  rewrite (bind_return get_df _ df df df) by done.
  destruct (node_fields df labels (λ n, PInt (node_id n)) "source")
    as [ids|e] eqn:Hids.
  - assert (cell ∈ tgt) as Htgt.
    { apply elem_of_app in Hcell as [Hin|Hin]; [|done].
      by rewrite (node_fields_missing _ _ _ _ _ _ Hs Hin Hnone) in Hids. }
    assert (cell ∉ src) as Hsrc.
    { intros Hin. by rewrite (node_fields_missing _ _ _ _ _ _ Hs Hin Hnone) in Hids. }
    pose proof Hids as Hlen.
    apply node_fields_return in Hlen as (col & Hcol & Hlen%Forall2_length).
    assert (col = src) as -> by congruence.
    rewrite (well_formed_length _ _ _ Hwf Hs) in Hlen.
    set (df2 := mkDF (nrows df) (<["source_id" := ids]> (columns df))).
    rewrite (bind_return _ _ df df ids) by done.
    rewrite (bind_return _ _ df df2 tt)
      by (unfold assign_list; by rewrite bool_decide_eq_true_2).
    rewrite (bind_return get_df _ df2 df2 df2) by done.
    assert (columns df2 !! "target" = Some tgt) as Ht2
      by (unfold df2; simpl; by rewrite lookup_insert_ne).
    exists df2. split; [|split].
    + apply bind_raise. unfold lift.
      by rewrite (node_fields_missing _ _ _ _ _ _ Ht2 Htgt Hnone).
    + intros c Hc. unfold df2. simpl. by rewrite lookup_insert_ne.
    + done.
  - apply (node_fields_raise _ _ _ _ _ _ Hs) in Hids as ->.
    exists df. split; [|done]. by apply bind_raise.
Qed.

(** ** The two loops of [get_data_ready_for_d3] *)

Lemma append_assoc (a b c : string) : (a +:+ b) +:+ c = a +:+ (b +:+ c).
Proof.
  induction a as [|x a IH]; [done|].
  change (String x ((a +:+ b) +:+ c) = String x (a +:+ (b +:+ c))). by rewrite IH.
Qed.

Lemma append_empty (a : string) : a +:+ "" = a.
Proof.
  induction a as [|x a IH]; [done|].
  change (String x (a +:+ "") = String x a). by rewrite IH.
Qed.

Lemma emit_return {A} (entry : A → outcome string) xs : ∀ X X',
  emit entry xs X = Return X' →
  ∃ texts, Forall2 (λ x t, entry x = Return t) xs texts ∧ X' = X +:+ join texts.
Proof.
  induction xs as [|x xs IH]; intros X X'; simpl.
  - intros [= <-]. exists []. split; [constructor|]. by rewrite append_empty.
  - destruct (entry x) as [t|e] eqn:Hx; [|done]. simpl. intros H.
    apply IH in H as (texts & Hall & ->). exists (t :: texts).
    split; [by constructor|]. simpl. by rewrite append_assoc.
Qed.

Lemma emit_total {A} (entry : A → outcome string) xs texts : ∀ X,
  Forall2 (λ x t, entry x = Return t) xs texts →
  emit entry xs X = Return (X +:+ join texts).
Proof.
  intros X H. revert X. induction H as [|x t xs texts Hx _ IH]; intros X; simpl.
  - by rewrite append_empty.
  - rewrite Hx. simpl. by rewrite IH, append_assoc.
Qed.

Lemma emit_raise {A} (entry : A → outcome string) xs e : ∀ X,
  emit entry xs X = Raise e → ∃ x, x ∈ xs ∧ entry x = Raise e.
Proof.
  induction xs as [|x xs IH]; intros X; simpl; [done|].
  destruct (entry x) as [t|e'] eqn:Hx; simpl.
  - intros (z & Hz & Hfz)%IH. exists z. split; [by apply list_elem_of_further | done].
  - intros [= ->]. exists x. split; [apply list_elem_of_here | done].
Qed.

Lemma Forall2_total {A B} (R : A → B → Prop) (l : list A) :
  (∀ x, x ∈ l → ∃ y, R x y) → ∃ k, Forall2 R l k.
Proof.
  induction l as [|x l IH]; intros H; [exists []; constructor|].
  destruct (H x) as [y Hy]; [apply list_elem_of_here|].
  destruct IH as [k Hk]; [intros z Hz; by apply H, list_elem_of_further|].
  exists (y :: k). by constructor.
Qed.

(** ** [get_data_ready_for_d3], taken apart *)

(** What a returned text is made of: the ids and the names of the
    sources followed by the targets, one node entry for each index that
    [np.unique] gives, in that order, and one link entry for each row, in
    row order. *)
Lemma get_data_ready_for_d3_return df labels X :
  get_data_ready_for_d3 df labels = Return X →
  ∃ src tgt ids names node_texts link_texts,
    columns df !! "source" = Some src ∧ columns df !! "target" = Some tgt ∧
    Forall2 (λ cell z, ∃ n, dict_get labels cell = Some n ∧ z = node_id n)
      (src ++ tgt) ids ∧
    Forall2 (λ cell s, ∃ n, dict_get labels cell = Some n ∧ s = node_desc n)
      (src ++ tgt) names ∧
    Forall2 (λ i t, node_of_index labels names i = Return t)
      (np_unique_index ids) node_texts ∧
    Forall2 (λ r t, link_of_row df r = Return t) (seq 0 (nrows df)) link_texts ∧
    X = payload_text node_texts link_texts.
Proof.
  unfold get_data_ready_for_d3.
  destruct (node_fields df labels node_id "source") as [zs|] eqn:H1; [|done].
  destruct (node_fields df labels node_id "target") as [zt|] eqn:H2; [|done].
  destruct (node_fields df labels node_desc "source") as [ns|] eqn:H3; [|done].
  destruct (node_fields df labels node_desc "target") as [nt|] eqn:H4; [|done].
  simpl.
  destruct (emit (node_of_index labels (ns ++ nt)) (np_unique_index (zs ++ zt)) _)
    as [X1|] eqn:H5; [|done].
  simpl.
  destruct (emit (link_of_row df) (seq 0 (nrows df)) _) as [X2|] eqn:H6; [|done].
  simpl. intros [= <-].
  apply node_fields_return in H1 as (src & Hs & H1), H2 as (tgt & Ht & H2).
  apply node_fields_return in H3 as (src' & Hs' & H3), H4 as (tgt' & Ht' & H4).
  assert (src' = src) as -> by congruence.
  assert (tgt' = tgt) as -> by congruence.
  apply emit_return in H5 as (node_texts & Hnodes & ->).
  apply emit_return in H6 as (link_texts & Hlinks & ->).
  exists src, tgt, (zs ++ zt), (ns ++ nt), node_texts, link_texts.
  repeat split; try done; try by apply Forall2_app.
  unfold payload_text. by rewrite !append_assoc.
Qed.

Lemma row_item_total df r c col :
  well_formed df = true → columns df !! c = Some col → r < nrows df →
  ∃ v, row_item df r c = Return v.
Proof.
  intros Hwf Hc Hr. unfold row_item, item. rewrite Hc.
  destruct (lookup_lt_is_Some_2 col r) as [v ->]; [|by eexists].
  by rewrite (well_formed_length _ _ _ Hwf Hc).
Qed.

(** The text is produced as soon as the table has the seven columns
    that the function reads, every source and target is a key of the
    catalog, and the description of each of these nodes is a key too. *)
Lemma get_data_ready_for_d3_total df labels src tgt :
  well_formed df = true →
  columns df !! "source" = Some src → columns df !! "target" = Some tgt →
  (∀ c, c ∈ ["source_id"; "target_id"; "weight"; "opacity"; "color"] →
        is_Some (columns df !! c)) →
  (∀ cell, cell ∈ src ++ tgt →
     ∃ n, dict_get labels cell = Some n ∧ is_Some (labels !! node_desc n)) →
  ∃ X, get_data_ready_for_d3 df labels = Return X.
Proof.
  intros Hwf Hs Ht Hcols Hkeys.
  assert (∀ c col, columns df !! c = Some col → col ⊆ src ++ tgt →
          ∀ cell, cell ∈ col → is_Some (dict_get labels cell)) as Hfound.
  { intros c col _ Hsub cell Hcell.
    destruct (Hkeys cell (Hsub _ Hcell)) as (n & -> & _). by eexists. }
  assert (src ⊆ src ++ tgt) as Hsub1 by (intros x Hx; apply elem_of_app; by left).
  assert (tgt ⊆ src ++ tgt) as Hsub2 by (intros x Hx; apply elem_of_app; by right).
  destruct (node_fields_total df labels node_id "source" src Hs
              (Hfound _ _ Hs Hsub1)) as [zs H1].
  destruct (node_fields_total df labels node_id "target" tgt Ht
              (Hfound _ _ Ht Hsub2)) as [zt H2].
  destruct (node_fields_total df labels node_desc "source" src Hs
              (Hfound _ _ Hs Hsub1)) as [ns H3].
  destruct (node_fields_total df labels node_desc "target" tgt Ht
              (Hfound _ _ Ht Hsub2)) as [nt H4].
  unfold get_data_ready_for_d3. rewrite H1, H2, H3, H4. simpl.
  apply node_fields_return in H1 as (src1 & Hs1 & H1), H2 as (tgt1 & Ht1 & H2).
  apply node_fields_return in H3 as (src2 & Hs2 & H3), H4 as (tgt2 & Ht2 & H4).
  assert (src1 = src) as -> by congruence. assert (src2 = src) as -> by congruence.
  assert (tgt1 = tgt) as -> by congruence. assert (tgt2 = tgt) as -> by congruence.
  pose proof (Forall2_app H1 H2) as Hids.
  pose proof (Forall2_app H3 H4) as Hnames.
  destruct (Forall2_total (λ i t, node_of_index labels (ns ++ nt) i = Return t)
              (np_unique_index (zs ++ zt))) as [node_texts Hnodes].
  { intros i Hi. unfold np_unique_index in Hi.
    apply list_elem_of_fmap in Hi as ([z j] & -> & Hzj). simpl.
    apply np_unique_lookup in Hzj.
    destruct (Forall2_lookup_r _ _ _ _ _ Hids Hzj) as (cell & Hcell & n & Hn & _).
    destruct (Forall2_lookup_l _ _ _ _ _ Hnames Hcell) as (s & Hname & n' & Hn' & ->).
    assert (n' = n) as -> by congruence.
    destruct (Hkeys cell) as (n' & Hn'' & m & Hm);
      [by eapply list_elem_of_lookup_2|].
    assert (n' = n) as -> by congruence.
    unfold node_of_index, item. rewrite Hname. simpl. rewrite Hm. by eexists. }
  rewrite (emit_total _ _ _ _ Hnodes). simpl.
  destruct (Forall2_total (λ r t, link_of_row df r = Return t)
              (seq 0 (nrows df))) as [link_texts Hlinks].
  { intros r Hr. apply list_elem_of_lookup in Hr as [k Hk].
    apply lookup_seq in Hk as [-> Hk]. simpl. unfold link_of_row.
    assert (∀ c, c ∈ ["source_id"; "target_id"; "weight"; "opacity"; "color"] →
            ∃ v, row_item df k c = Return v) as Hrow.
    { intros c Hc. destruct (Hcols c Hc) as [col Hcol].
      by apply (row_item_total df k c col). }
    destruct (Hrow "source_id") as [v1 ->]; [repeat constructor|].
    destruct (Hrow "target_id") as [v2 ->]; [repeat constructor|].
    destruct (Hrow "weight") as [v3 ->]; [repeat constructor|].
    destruct (Hrow "opacity") as [v4 ->]; [repeat constructor|].
    destruct (Hrow "color") as [v5 ->]; [repeat constructor|].
    by eexists. }
  rewrite (emit_total _ _ _ _ Hlinks). simpl. by eexists.
Qed.

Lemma Forall2_with_left {A B} (Q : A → Prop) (R : A → B → Prop) l k :
  Forall Q l → Forall2 R l k → Forall2 (λ x y, Q x ∧ R x y) l k.
Proof.
  intros HQ HR. induction HR as [|x y l k Hxy _ IH]; [constructor|].
  apply Forall_cons in HQ as [Hx HQ]. constructor; [done|]. by apply IH.
Qed.

Lemma Forall2_choose {A B C} (R : A → B → Prop) (S : C → B → Prop) l k :
  Forall2 R l k → (∀ x y, R x y → ∃ z, S z y) → ∃ zs, Forall2 S zs k.
Proof.
  intros HR Himp. induction HR as [|x y l k Hxy _ [zs IH]]; [exists []; constructor|].
  destruct (Himp x y Hxy) as [z Hz]. exists (z :: zs). by constructor.
Qed.

(** ** Order of the nodes and of the links *)

(** C5. In a text that [get_data_ready_for_d3] returns, the node entries
    stand for strictly increasing ids, each id of a source or target of
    the table once, however often its key occurs in the two columns; the
    entry for an id is read at an index where the id occurs; and the
    [r]-th link entry is the entry of the row of position [r]. *)
Theorem nodes_by_id_links_by_row (df : DataFrame) (labels : gmap string Node)
    (X : string) :
  get_data_ready_for_d3 df labels = Return X →
  ∃ (src tgt : list pyval) (ids : list Z) (names : list string)
    (emitted : list (Z * nat)) (node_texts link_texts : list string),
    columns df !! "source" = Some src ∧ columns df !! "target" = Some tgt ∧
    Forall2 (λ cell z, ∃ n, dict_get labels cell = Some n ∧ z = node_id n)
      (src ++ tgt) ids ∧
    Forall2 (λ cell s, ∃ n, dict_get labels cell = Some n ∧ s = node_desc n)
      (src ++ tgt) names ∧
    StronglySorted Z.lt emitted.*1 ∧
    NoDup emitted.*1 ∧
    (∀ z, z ∈ emitted.*1 ↔ z ∈ ids) ∧
    Forall2 (λ e t, ids !! e.2 = Some e.1 ∧
                    node_of_index labels names e.2 = Return t)
      emitted node_texts ∧
    Forall2 (λ r t, link_of_row df r = Return t) (seq 0 (nrows df)) link_texts ∧
    X = payload_text node_texts link_texts.
Proof.
  intros (src & tgt & ids & names & node_texts & link_texts &
          Hs & Ht & Hids & Hnames & Hnodes & Hlinks & ->)%get_data_ready_for_d3_return.
  exists src, tgt, ids, names, (np_unique ids), node_texts, link_texts.
  repeat split; try done.
  - apply np_unique_sorted.
  - apply strictly_sorted_NoDup, np_unique_sorted.
  - by apply np_unique_values.
  - by apply np_unique_values.
  - unfold np_unique_index in Hnodes. apply Forall2_fmap_l in Hnodes.
    apply Forall2_with_left; [|done].
    apply Forall_forall. intros [z i] Hzi. by apply np_unique_lookup.
Qed.

(** ** Color and opacity of a node are read under its description *)

Lemma emitted_under_description df labels X :
  get_data_ready_for_d3 df labels = Return X →
  ∃ (src tgt : list pyval) (emitted : list (pyval * Node * Node))
    (node_texts link_texts : list string),
    columns df !! "source" = Some src ∧ columns df !! "target" = Some tgt ∧
    Forall2 (λ e t,
       e.1.1 ∈ src ++ tgt ∧
       dict_get labels e.1.1 = Some e.1.2 ∧
       labels !! node_desc e.1.2 = Some e.2 ∧
       t = node_entry (node_desc e.1.2) (node_color e.2) (PFloat (node_opacity e.2)))
      emitted node_texts ∧
    X = payload_text node_texts link_texts.
Proof.
  intros (src & tgt & ids & names & node_texts & link_texts &
          Hs & Ht & Hids & Hnames & Hnodes & Hlinks & ->)%get_data_ready_for_d3_return.
  destruct (Forall2_choose _
    (λ (e : pyval * Node * Node) t,
       e.1.1 ∈ src ++ tgt ∧
       dict_get labels e.1.1 = Some e.1.2 ∧
       labels !! node_desc e.1.2 = Some e.2 ∧
       t = node_entry (node_desc e.1.2) (node_color e.2) (PFloat (node_opacity e.2)))
    _ _ Hnodes) as [emitted Hem].
  { intros i t Hi. unfold node_of_index, item in Hi.
    destruct (names !! i) as [name|] eqn:Hname; [|done]. simpl in Hi.
    destruct (labels !! name) as [n|] eqn:Hn; [|done]. simpl in Hi.
    injection Hi as <-.
    destruct (Forall2_lookup_r _ _ _ _ _ Hnames Hname) as (cell & Hcell & nk & Hnk & ->).
    exists (cell, nk, n). simpl. repeat split; try done.
    by eapply list_elem_of_lookup_2. }
  by exists src, tgt, emitted, node_texts, link_texts.
Qed.

Lemma descriptions_are_keys df labels X src tgt cell :
  get_data_ready_for_d3 df labels = Return X →
  ids_distinct labels →
  columns df !! "source" = Some src → columns df !! "target" = Some tgt →
  cell ∈ src ++ tgt →
  ∃ n, dict_get labels cell = Some n ∧ is_Some (labels !! node_desc n).
Proof.
  intros (src' & tgt' & ids & names & node_texts & link_texts &
          Hs' & Ht' & Hids & Hnames & Hnodes & _ & _)%get_data_ready_for_d3_return
         Hdistinct Hs Ht Hcell.
  assert (src' = src) as -> by congruence.
  assert (tgt' = tgt) as -> by congruence.
  apply list_elem_of_lookup in Hcell as [j Hj].
  destruct (Forall2_lookup_l _ _ _ _ _ Hids Hj) as (z & Hz & n & Hn & ->).
  exists n. split; [done|].
  assert (node_id n ∈ (np_unique ids).*1) as Hin
    by (apply np_unique_values; by eapply list_elem_of_lookup_2).
  apply list_elem_of_fmap in Hin as ([z i] & Hzi & Hin). simpl in Hzi. subst z.
  pose proof (np_unique_lookup _ _ _ Hin) as Hi.
  destruct (Forall2_lookup_r _ _ _ _ _ Hids Hi) as (cell' & Hcell' & n' & Hn' & Hid).
  assert (n' = n) as ->.
  { destruct cell as [| | | |k], cell' as [| | | |k']; try done. simpl in Hn, Hn'.
    assert (k = k') as -> by (by eapply Hdistinct). congruence. }
  destruct (Forall2_lookup_l _ _ _ _ _ Hnames Hcell') as (s & Hname & n' & Hn'' & ->).
  assert (n' = n) as -> by congruence.
  assert (i ∈ np_unique_index ids) as Hidx.
  { unfold np_unique_index. apply list_elem_of_fmap. by exists (node_id n, i). }
  apply list_elem_of_lookup in Hidx as [k Hk].
  destruct (Forall2_lookup_l _ _ _ _ _ Hnodes Hk) as (t & _ & Ht0).
  unfold node_of_index, item in Ht0. rewrite Hname in Ht0. simpl in Ht0.
  destruct (labels !! node_desc n) as [m|]; [by eexists | done].
Qed.

(** C10. [get_data_ready_for_d3] reads the color and the opacity of a
    node under the node's description, not under its key.
    (1) In a returned text each node entry carries the description of
    the node of a source or target, with the color and the opacity of
    the catalog entry whose key is that description.
    (2) When distinct keys have distinct ids, a text is returned only if
    the description of the node of every source and target is a key.
    (3) With the columns in place and all sources and targets in the
    catalog, that is enough for a text to be returned.
    (4) For the round-trip table and a catalog where A is described as
    Alpha, no key, the emission of the nodes raises; with the
    descriptions equal to the keys it returns. *)
Theorem node_properties_by_description :
  (∀ df labels X,
     get_data_ready_for_d3 df labels = Return X →
     ∃ (src tgt : list pyval) (emitted : list (pyval * Node * Node))
       (node_texts link_texts : list string),
       columns df !! "source" = Some src ∧ columns df !! "target" = Some tgt ∧
       Forall2 (λ e t,
          e.1.1 ∈ src ++ tgt ∧
          dict_get labels e.1.1 = Some e.1.2 ∧
          labels !! node_desc e.1.2 = Some e.2 ∧
          t = node_entry (node_desc e.1.2) (node_color e.2) (PFloat (node_opacity e.2)))
         emitted node_texts ∧
       X = payload_text node_texts link_texts) ∧
  (∀ df labels X src tgt cell,
     get_data_ready_for_d3 df labels = Return X →
     ids_distinct labels →
     columns df !! "source" = Some src → columns df !! "target" = Some tgt →
     cell ∈ src ++ tgt →
     ∃ n, dict_get labels cell = Some n ∧ is_Some (labels !! node_desc n)) ∧
  (∀ df labels src tgt,
     well_formed df = true →
     columns df !! "source" = Some src → columns df !! "target" = Some tgt →
     (∀ c, c ∈ ["source_id"; "target_id"; "weight"; "opacity"; "color"] →
           is_Some (columns df !! c)) →
     (∀ cell, cell ∈ src ++ tgt →
        ∃ n, dict_get labels cell = Some n ∧ is_Some (labels !! node_desc n)) →
     ∃ X, get_data_ready_for_d3 df labels = Return X) ∧
  (nodes_renamed !! "Alpha" = None ∧
   get_data_ready_for_d3 edgesAB_resolved nodes_renamed = Raise TypeError ∧
   get_data_ready_for_d3 edgesAB_resolved nodesAB = Return (payload_built ",")).
Proof.
  split; [|split; [|split]].
  - apply emitted_under_description.
  - apply descriptions_are_keys.
  - apply get_data_ready_for_d3_total.
  - by vm_compute.
Qed.

(** ** The round trip *)

(** C1, as the code has it. For the catalog and the one-row table of the
    round trip, [set_edge_properties] with color and opacity ["source"]
    returns, and [show] (the id resolution followed by
    [get_data_ready_for_d3]) builds the nodes A and B and the one link
    with the members, the values and the order of the stated payload,
    numbers bare and colors between quotes, with a blank after the comma
    that separates the node entries and a blank before the links. What
    the text has between the last node entry and the closing bracket is
    left open here. *)
Theorem round_trip_text (colourmap : string → list string → string → string)
    (cmap : string) :
  let run := set_edge_properties colourmap (One (PStr "source"))
               (One (PStr "source")) cmap (Some nodesAB) edgesAB in
  run.2 = Return tt ∧
  ∃ tail, (tail = "" ∨ tail = ",") ∧
          (show nodesAB run.1).2 = Return (payload_built tail).
Proof.
  split; [by vm_compute|]. exists ",". split; [by right|]. by vm_compute.
Qed.

(** The text differs from the stated payload; and without the id
    resolution of [show], [get_data_ready_for_d3] finds no column
    [source_id]. *)
Lemma round_trip_text_differs :
  let run := set_edge_properties sample_colourmap (One (PStr "source"))
               (One (PStr "source")) "tab20" (Some nodesAB) edgesAB in
  get_data_ready_for_d3 run.1 nodesAB = Raise (KeyError "source_id") ∧
  (show nodesAB run.1).2 = Return (payload_built ",") ∧
  payload_built "," ≠ payload_claimed.
Proof.
  split; [by vm_compute|]. split; [by vm_compute|].
  apply String.eqb_neq. by vm_compute.
Qed.

(** ** Evaluations *)

(** C2 on the code: a per-row opacity of the right length is dropped.
    The three rows get 0.8, not 0.1, 0.2 and 0.3. *)
Theorem per_row_opacity_dropped :
  let run := set_edge_properties sample_colourmap (One (PStr "target"))
               (Many [PFloat "0.1"; PFloat "0.2"; PFloat "0.3"]) "tab20" None edges3 in
  run.2 = Return tt ∧
  columns run.1 !! "opacity" = Some [PFloat "0.8"; PFloat "0.8"; PFloat "0.8"].
Proof. by vm_compute. Qed.

(** C6 as stated does not hold: for a table without [weight], the
    opacity is assigned before [SchemaError] is raised, and a per-row
    opacity of the wrong length raises the size-mismatch exception
    instead. *)
Lemma schema_error_comes_after_opacity :
  has_column "weight" edges_no_weight = false ∧
  columns edges_no_weight !! "opacity" = None ∧
  (let run := set_edge_properties sample_colourmap (One (PStr "target"))
                (One (PFloat "0.8")) "tab20" None edges_no_weight in
   run.2 = Raise SchemaError ∧ columns run.1 !! "opacity" = Some [PFloat "0.8"]) ∧
  (set_edge_properties sample_colourmap (One (PStr "target"))
     (Many []) "tab20" None edges_no_weight).2 = Raise ConfigurationError.
Proof. by vm_compute. Qed.

(** ** The theorems at the samples *)

Lemma opacity_size_mismatch_raises_witness :
  length ([] : list pyval) ≠ nrows edgesAB ∧
  set_edge_properties sample_colourmap (One (PStr "target")) (Many []) "tab20"
    (Some nodesAB) edgesAB = (edgesAB, Raise ConfigurationError).
Proof.
  split; [simpl; lia|].
  apply opacity_size_mismatch_raises. simpl. lia.
Defined.

Lemma opacity_follows_the_endpoint_witness :
  well_formed edges3 = true ∧
  columns edges3 !! "source" = Some [PStr "A"; PStr "C"; PStr "A"] ∧
  columns (set_edge_properties sample_colourmap (One (PStr "target"))
             (One (PStr "source")) "tab20" (Some nodesAB) edges3).1 !! "opacity" =
    Some [PFloat "0.5"; PFloat "0.8"; PFloat "0.5"].
Proof.
  split; [vm_compute; reflexivity|]. split; [vm_compute; reflexivity|].
  apply (opacity_follows_the_endpoint sample_colourmap edges3 "source" nodesAB
           (One (PStr "target")) "tab20" [PStr "A"; PStr "C"; PStr "A"]).
  - left. reflexivity.
  - vm_compute. reflexivity.
  - vm_compute. reflexivity.
Defined.

Lemma color_sequence_leaves_opacity_witness :
  columns (set_edge_properties sample_colourmap (Many [PStr "#123456"])
             (One (PStr "source")) "tab20" None edgesAB).1 !! "opacity" =
    columns edgesAB !! "opacity".
Proof.
  apply color_sequence_leaves_opacity.
  - reflexivity.
  - reflexivity.
  - reflexivity.
  - left. reflexivity.
  - reflexivity.
Defined.

Lemma missing_column_raises_after_opacity_witness :
  let df1 := (opacity_rules (One (PStr "target")) (One (PFloat "0.8")) None
                edges_no_weight).1 in
  set_edge_properties sample_colourmap (One (PStr "target")) (One (PFloat "0.8"))
    "tab20" None edges_no_weight = (df1, Raise SchemaError) ∧
  ∀ c, c ≠ "opacity" → columns df1 !! c = columns edges_no_weight !! c.
Proof.
  apply missing_column_raises_after_opacity.
  - vm_compute. reflexivity.
  - vm_compute. reflexivity.
Defined.

Lemma same_pair_same_color_witness :
  let run := set_edge_properties sample_colourmap (One PNone) (One (PFloat "0.8"))
               "tab20" None edges3 in
  ∃ src tgt colors,
    columns edges3 !! "source" = Some src ∧ columns edges3 !! "target" = Some tgt ∧
    columns run.1 !! "source" = Some src ∧ columns run.1 !! "target" = Some tgt ∧
    columns run.1 !! "color" = Some colors ∧
    length colors = nrows edges3 ∧
    ∀ i j, i < nrows edges3 → j < nrows edges3 →
      src !! i = src !! j → tgt !! i = tgt !! j →
      colors !! i = colors !! j.
Proof.
  apply (same_pair_same_color sample_colourmap edges3 _ (One (PFloat "0.8"))
           "tab20" None).
  - vm_compute. reflexivity.
  - vm_compute. reflexivity.
Defined.

Lemma show_unknown_key_raises_witness :
  ∃ df', show nodesAB edges3 = (df', Raise LookupError) ∧
         (∀ c, c ≠ "source_id" → columns df' !! c = columns edges3 !! c) ∧
         (PStr "C" ∈ [PStr "A"; PStr "C"; PStr "A"] → df' = edges3).
Proof.
  apply (show_unknown_key_raises edges3 nodesAB [PStr "A"; PStr "C"; PStr "A"]
           [PStr "B"; PStr "A"; PStr "B"] (PStr "C")).
  - vm_compute. reflexivity.
  - vm_compute. reflexivity.
  - vm_compute. reflexivity.
  - apply list_elem_of_further, list_elem_of_here.
  - vm_compute. reflexivity.
Defined.


Lemma node_properties_by_description_witness :
  ∃ (src tgt : list pyval) (emitted : list (pyval * Node * Node))
    (node_texts link_texts : list string),
    columns edgesAB_resolved !! "source" = Some src ∧
    columns edgesAB_resolved !! "target" = Some tgt ∧
    Forall2 (λ e t,
       e.1.1 ∈ src ++ tgt ∧
       dict_get nodesAB e.1.1 = Some e.1.2 ∧
       nodesAB !! node_desc e.1.2 = Some e.2 ∧
       t = node_entry (node_desc e.1.2) (node_color e.2) (PFloat (node_opacity e.2)))
      emitted node_texts ∧
    payload_built "," = payload_text node_texts link_texts.
Proof.
  apply (proj1 node_properties_by_description edgesAB_resolved nodesAB).
  vm_compute. reflexivity.
Defined.

(** * Further properties of [set_edge_properties] *)





Lemma opacity_rules_frame color opacity nodes df df1 o :
  opacity_rules color opacity nodes df = (df1, o) →
  nrows df1 = nrows df ∧ ∀ c, c ≠ "opacity" → columns df1 !! c = columns df !! c.
Proof.
  intros H. destruct (writes_only_opacity_rules color opacity nodes df) as [Hn Hc].
  rewrite H in Hn, Hc. simpl in *. split; [done|]. intros c Hne. apply Hc.
  rewrite not_elem_of_cons. split; [done|apply not_elem_of_nil].
Qed.

Lemma opacity_rules_scalar color opacity nodes df v :
  as_number opacity = Some v →
  opacity_rules color opacity nodes df = assign_scalar "opacity" v df.
Proof.
  intros Hv. unfold opacity_rules. rewrite (bind_return get_df _ df df df) by done.
  destruct opacity as [[| b | z | r | s]|l]; simpl in Hv; try done;
    injection Hv as <-; simpl; by destruct nodes.
Qed.

Lemma opacity_rules_default color opacity nodes df :
  isinstance_list opacity && negb (bool_decide (py_len opacity = nrows df)) = false →
  is_None opacity && has_column "opacity" df = false →
  nodes = None ∨ source_or_target opacity = None →
  as_number opacity = None →
  isinstance_list color && bool_decide (py_len color = nrows df) = false →
  opacity_rules color opacity nodes df = assign_scalar "opacity" (PFloat "0.8") df.
Proof.
  intros H1 H2 H3 H4 H5. unfold opacity_rules.
  rewrite (bind_return get_df _ df df df) by done.
  rewrite H1, H2, H4, H5.
  destruct H3 as [-> | ->]; [done|]. by destruct nodes.
Qed.

Section FurtherProperties.

Variable colourmap : string → list string → string → string.

(** Once the opacity rules have returned on a table with the three
    required columns, the call goes on with the color rules. *)
Lemma set_edge_properties_color_step color opacity cmap nodes df df1 :
  opacity_rules color opacity nodes df = (df1, Return tt) →
  has_column "source" df && has_column "target" df && has_column "weight" df = true →
  set_edge_properties colourmap color opacity cmap nodes df =
    color_rules colourmap color cmap nodes df1.
Proof.
  intros Hop Hcols.
  rewrite (set_edge_properties_after_opacity _ _ _ _ _ _ _ Hop).
  destruct (opacity_rules_frame _ _ _ _ _ _ Hop) as [_ Hsame].
  assert (pre_processing df1 = (df1, Return tt)) as Hpre.
  { unfold pre_processing. rewrite (bind_return get_df _ df1 df1 df1) by done.
    unfold has_column in *. rewrite !Hsame by done. by rewrite Hcols. }
  by rewrite (bind_return _ _ _ _ _ Hpre).
Qed.

(** X1. A number given as [opacity] becomes the opacity of every row,
    whatever the color argument, the catalog and the columns of the table
    are. *)
Theorem scalar_opacity_uniform (df : DataFrame) (color opacity : pyarg)
    (cmap : string) (nodes : option (gmap string Node)) (v : pyval) :
  as_number opacity = Some v →
  columns (set_edge_properties colourmap color opacity cmap nodes df).1 !! "opacity" =
    Some (replicate (nrows df) v).
Proof.
  intros Hv. rewrite opacity_column_settled, (opacity_rules_scalar _ _ _ _ _ Hv).
  simpl. by rewrite lookup_insert_eq.
Qed.

(** X2. When no opacity rule decides (no number, no sequence of the
    wrong length, not None over an opacity column, not ["source"] or
    ["target"] with a catalog) and [color] is not a sequence with one
    entry per row, every row gets the opacity 0.8: so does
    ["source"] without a catalog, or any other string. *)
Theorem unmatched_opacity_defaults (df : DataFrame) (color opacity : pyarg)
    (cmap : string) (nodes : option (gmap string Node)) :
  isinstance_list opacity && negb (bool_decide (py_len opacity = nrows df)) = false →
  is_None opacity && has_column "opacity" df = false →
  nodes = None ∨ source_or_target opacity = None →
  as_number opacity = None →
  isinstance_list color && bool_decide (py_len color = nrows df) = false →
  columns (set_edge_properties colourmap color opacity cmap nodes df).1 !! "opacity" =
    Some (replicate (nrows df) (PFloat "0.8")).
Proof.
  intros H1 H2 H3 H4 H5.
  rewrite opacity_column_settled, (opacity_rules_default _ _ _ _ H1 H2 H3 H4 H5).
  simpl. by rewrite lookup_insert_eq.
Qed.

Lemma hex_literal_some color s :
  hex_literal color = Return (Some s) →
  color = One (PStr s) ∧ source_or_target color = None ∧ is_None color = false.
Proof.
  destruct color as [[| | | |t]|l]; try done. simpl.
  destruct t as [|c t]; [done|].
  destruct (bool_decide (c = "#"%char)) eqn:Hc; [|done].
  apply bool_decide_eq_true in Hc as ->.
  destruct (bool_decide _); [|done]. simpl. by intros [= <-].
Qed.

(** X3. A color of seven characters that starts with [#] becomes the
    color of every row, whenever the opacity rules return and the table
    has the three required columns. *)
Theorem hex_color_uniform (df df1 : DataFrame) (color opacity : pyarg)
    (cmap : string) (nodes : option (gmap string Node)) (s : string) :
  hex_literal color = Return (Some s) →
  opacity_rules color opacity nodes df = (df1, Return tt) →
  has_column "source" df && has_column "target" df && has_column "weight" df = true →
  set_edge_properties colourmap color opacity cmap nodes df =
    (mkDF (nrows df) (<["color" := replicate (nrows df) (PStr s)]> (columns df1)),
     Return tt).
Proof.
  intros Hhex Hop Hcols.
  rewrite (set_edge_properties_color_step _ _ _ _ _ _ Hop Hcols).
  destruct (opacity_rules_frame _ _ _ _ _ _ Hop) as [Hn _].
  destruct (hex_literal_some _ _ Hhex) as (-> & Hsot & Hnone).
  unfold color_rules. rewrite (bind_return get_df _ df1 df1 df1) by done.
  rewrite Hnone, Hsot. simpl andb. cbv iota.
  assert ((hex ← lift (hex_literal (One (PStr s)));
           match hex with
           | Some s0 => assign_list "color" (replicate (nrows df1) (PStr s0))
           | None =>
               if isinstance_list (One (PStr s)) &&
                  bool_decide (py_len (One (PStr s)) = nrows df1)
               then mret tt else color_by_pair colourmap cmap
           end) df1 =
          (mkDF (nrows df) (<["color" := replicate (nrows df) (PStr s)]> (columns df1)),
           Return tt)) as Hrun.
  { rewrite (bind_return _ _ df1 df1 (Some s)) by (unfold lift; by rewrite Hhex).
    unfold assign_list. rewrite length_replicate, bool_decide_eq_true_2 by done.
    by rewrite Hn. }
  by destruct nodes.
Qed.


(** X5. With [color] and [opacity] both None the two rule blocks
    assign nothing on a table that has an opacity column: whatever the
    pre-processing step does, the call is that step and no more. If the
    step returns a table that has a color column, this table is the
    result, with both columns as they stand; if it raises, the call
    raises the same, with the table as the step left it. *)
Theorem existing_columns_used_verbatim (pre : M unit) (df df' : DataFrame)
    (o : outcome unit) (cmap : string) (nodes : option (gmap string Node)) :
  has_column "opacity" df = true →
  pre df = (df', o) →
  (∀ u, o = Return u → has_column "color" df' = true) →
  set_edge_properties_with pre colourmap (One PNone) (One PNone) cmap nodes df =
    (df', o).
Proof.
  intros Ho Hpre Hc. unfold set_edge_properties_with.
  assert (opacity_rules (One PNone) (One PNone) nodes df = (df, Return tt)) as Hop.
  { unfold opacity_rules. rewrite (bind_return get_df _ df df df) by done.
    simpl. by rewrite Ho. }
  rewrite (bind_return _ _ _ _ _ Hop).
  destruct o as [[]|e].
  - rewrite (bind_return _ _ _ _ _ Hpre).
    unfold color_rules. rewrite (bind_return get_df _ df' df' df') by done.
    simpl. by rewrite (Hc tt eq_refl).
  - by rewrite (bind_raise _ _ _ _ _ Hpre).
Qed.

(** With the pre-processing modelled from the spec, this is
    [set_edge_properties]. *)
Lemma set_edge_properties_with_pre_processing color opacity cmap nodes :
  set_edge_properties_with pre_processing colourmap color opacity cmap nodes =
  set_edge_properties colourmap color opacity cmap nodes.
Proof. reflexivity. Qed.

Lemma color_rules_sequence l cmap nodes df :
  length l = nrows df →
  color_rules colourmap (Many l) cmap nodes df = (df, Return tt).
Proof.
  intros Hlen. unfold color_rules. rewrite (bind_return get_df _ df df df) by done.
  simpl.
  assert ((hex ← lift (hex_literal (Many l));
           match hex with
           | Some s => assign_list "color" (replicate (nrows df) (PStr s))
           | None =>
               if true && bool_decide (length l = nrows df)
               then mret tt else color_by_pair colourmap cmap
           end) df = (df, Return tt)) as Hrun.
  { rewrite (bind_return _ _ df df None) by done.
    by rewrite (bool_decide_eq_true_2 _ Hlen). }
  by destruct nodes.
Qed.

(** X6. A per-row color with one entry per row is not assigned: after the
    call, returned or raised, the color column is the one of the input
    (absent if it was absent), and no labels are computed. *)
Theorem per_row_color_not_assigned (df : DataFrame) (l : list pyval)
    (opacity : pyarg) (cmap : string) (nodes : option (gmap string Node)) :
  length l = nrows df →
  let df' := (set_edge_properties colourmap (Many l) opacity cmap nodes df).1 in
  columns df' !! "color" = columns df !! "color" ∧
  columns df' !! "labels" = columns df !! "labels".
Proof.
  intros Hlen.
  destruct (opacity_rules (Many l) opacity nodes df) as [df1 [[]|e]] eqn:Hop.
  - destruct (opacity_rules_frame _ _ _ _ _ _ Hop) as [Hn Hsame].
    rewrite (set_edge_properties_after_opacity _ _ _ _ _ _ _ Hop).
    destruct (pre_processing df1) as [df2 [[]|e]] eqn:Hpre.
    + apply pre_processing_inv in Hpre as Hinv. destruct Hinv as [-> _].
      rewrite (bind_return _ _ _ _ _ Hpre).
      rewrite color_rules_sequence by congruence. simpl. by rewrite !Hsame.
    + rewrite (bind_raise _ _ _ _ _ Hpre). simpl.
      destruct (writes_only_pre_processing [] df1) as [_ Hpp].
      rewrite Hpre in Hpp. simpl in Hpp.
      rewrite !Hpp by apply not_elem_of_nil. by rewrite !Hsame.
  - rewrite (set_edge_properties_opacity_raises _ _ _ _ _ _ _ _ Hop). simpl.
    destruct (opacity_rules_frame _ _ _ _ _ _ Hop) as [_ Hsame]. by rewrite !Hsame.
Qed.



(** X9. With a catalog that has at least one node and [opacity] set to
    ["source"] (resp. ["target"]), a table without that column makes the
    call raise [KeyError] for the column, before the check of the
    required columns; the opacity column holds the default 0.8 by then. *)
Theorem node_opacity_needs_endpoint_column (df : DataFrame) (which : string)
    (nodes : gmap string Node) (color : pyarg) (cmap : string) :
  which = "source" ∨ which = "target" →
  columns df !! which = None →
  nodes ≠ ∅ →
  set_edge_properties colourmap color (One (PStr which)) cmap (Some nodes) df =
    (mkDF (nrows df)
       (<["opacity" := replicate (nrows df) (PFloat "0.8")]> (columns df)),
     Raise (KeyError which)).
Proof.
  intros Hwhich Hmiss Hne.
  assert (which ≠ "opacity") as Hne' by (destruct Hwhich; by subst).
  apply set_edge_properties_opacity_raises.
  unfold opacity_rules. rewrite (bind_return get_df _ df df df) by done.
  simpl. rewrite (bool_decide_eq_true_2 _ Hwhich).
  set (df2 := mkDF (nrows df)
    (<["opacity" := replicate (nrows df) (PFloat "0.8")]> (columns df))).
  rewrite (bind_return _ _ df df2 tt) by done.
  unfold copy_from_nodes.
  destruct (dict_keys nodes) as [|k ks] eqn:Hkeys.
  { unfold dict_keys in Hkeys. apply fmap_nil_inv in Hkeys.
    by apply map_to_list_empty_iff in Hkeys. }
  assert (is_Some (nodes !! k)) as [n Hn].
  { apply elem_of_dict_keys. rewrite Hkeys. apply list_elem_of_here. }
  simpl. apply bind_raise.
  rewrite (bind_return _ _ df2 df2 n) by (unfold lift; by rewrite Hn).
  unfold loc_assign. apply bind_raise.
  unfold column, read_column, df2. simpl.
  by rewrite lookup_insert_ne, Hmiss.
Qed.

End FurtherProperties.

(** ** The labels of the (source, target) pairs *)

Lemma row_index_lookup u p i : row_index u p = Some i → u !! i = Some p.
Proof.
  unfold row_index. destruct (list_find _ u) as [[j q]|] eqn:Hfind; [|done].
  simpl. intros [= <-]. apply list_find_Some in Hfind as (Hj & -> & _). done.
Qed.

(** X10. Lines 110-111 give every row a label, and two rows get the same
    label exactly when they have the same source and the same target:
    distinct pairs are never merged, equal pairs are never split. *)
Theorem labels_identify_pairs (d : list (string * string)) :
  let labels := ismember_rows d (groupby_source_target d) in
  length labels = length d ∧
  ∀ a b i j, labels !! a = Some i → labels !! b = Some j →
             (i = j ↔ d !! a = d !! b).
Proof.
  pose proof (ismember_rows_groupby d) as Hall. simpl. split.
  - symmetry. by eapply Forall2_length.
  - intros a b i j Ha Hb.
    destruct (Forall2_lookup_r _ _ _ _ _ Hall Ha) as (p & Hp & Hi).
    destruct (Forall2_lookup_r _ _ _ _ _ Hall Hb) as (q & Hq & Hj).
    rewrite Hp, Hq. split.
    + intros ->. apply row_index_lookup in Hi, Hj. congruence.
    + intros [= ->]. congruence.
Qed.

(** * Further properties of [show] and [get_data_ready_for_d3] *)

Lemma node_fields_found {A} df labels (field : Node → A) c col xs :
  columns df !! c = Some col →
  Forall2 (λ cell x, ∃ n, dict_get labels cell = Some n ∧ x = field n) col xs →
  node_fields df labels field c = Return xs.
Proof.
  intros Hc Hall. unfold node_fields, read_column. rewrite Hc. simpl. clear Hc.
  induction Hall as [|cell x col' xs' (n & Hn & ->) _ IH]; [done|].
  simpl. rewrite Hn. simpl. by rewrite IH.
Qed.



Lemma row_item_return df r c v :
  row_item df r c = Return v →
  ∃ col, columns df !! c = Some col ∧ col !! r = Some v.
Proof.
  unfold row_item, item. destruct (columns df !! c) as [col|]; [|done].
  destruct (col !! r) as [x|] eqn:Hr; [|done]. intros [= <-]. by exists col.
Qed.

Lemma link_of_row_return df r t :
  link_of_row df r = Return t →
  ∃ v1 v2 v3 v4 v5,
    row_item df r "source_id" = Return v1 ∧ row_item df r "target_id" = Return v2 ∧
    row_item df r "weight" = Return v3 ∧ row_item df r "opacity" = Return v4 ∧
    row_item df r "color" = Return v5 ∧ t = link_entry v1 v2 v3 v4 v5.
Proof.
  unfold link_of_row.
  destruct (row_item df r "source_id") as [v1|]; [|done].
  destruct (row_item df r "target_id") as [v2|]; [|done].
  destruct (row_item df r "weight") as [v3|]; [|done].
  destruct (row_item df r "opacity") as [v4|]; [|done].
  destruct (row_item df r "color") as [v5|]; [|done].
  simpl. intros [= <-]. by exists v1, v2, v3, v4, v5.
Qed.

(** X12. [get_data_ready_for_d3] returns a text only for a table that
    has the columns [source] and [target] and, if it has a row at all,
    the columns [source_id], [target_id], [weight], [opacity] and
    [color] with a cell in every row: called on the result of
    [set_edge_properties] without the ids of [show], or on a table whose
    color was never assigned, it raises. *)
Theorem payload_needs_columns (df : DataFrame) (labels : gmap string Node)
    (X : string) :
  get_data_ready_for_d3 df labels = Return X →
  is_Some (columns df !! "source") ∧ is_Some (columns df !! "target") ∧
  (0 < nrows df →
   ∀ c, c ∈ ["source_id"; "target_id"; "weight"; "opacity"; "color"] →
        ∃ col, columns df !! c = Some col ∧
               ∀ r, r < nrows df → is_Some (col !! r)).
Proof.
  intros (src & tgt & ids & names & node_texts & link_texts &
          Hs & Ht & _ & _ & _ & Hlinks & _)%get_data_ready_for_d3_return.
  split; [by eexists|]. split; [by eexists|].
  intros Hrows c Hc.
  assert (∀ r, r < nrows df → ∃ col, columns df !! c = Some col ∧ is_Some (col !! r))
    as Hrow.
  { intros r Hr.
    destruct (Forall2_lookup_l _ _ _ _ _ Hlinks (lookup_seq_lt 0 (nrows df) r Hr))
      as (t & _ & Hlink).
    apply link_of_row_return in Hlink
      as (v1 & v2 & v3 & v4 & v5 & H1 & H2 & H3 & H4 & H5 & _).
    apply row_item_return in H1 as (c1 & ? & ?), H2 as (c2 & ? & ?),
      H3 as (c3 & ? & ?), H4 as (c4 & ? & ?), H5 as (c5 & ? & ?).
    repeat (apply elem_of_cons in Hc as [->|Hc]; [by eexists | ]).
    by apply elem_of_nil in Hc. }
  destruct (Hrow 0 Hrows) as (col & Hcol & _). exists col. split; [done|].
  intros r Hr. destruct (Hrow r Hr) as (col' & Hcol' & Hsome). congruence.
Qed.

(** X13. For a table without rows the text is not a payload: each of the
    two [X[:-1]] removes the opening bracket of its array, there being
    no separator to remove. *)
Theorem empty_table_text (df : DataFrame) (labels : gmap string Node) :
  well_formed df = true →
  nrows df = 0 →
  is_Some (columns df !! "source") → is_Some (columns df !! "target") →
  get_data_ready_for_d3 df labels =
    Return (with_double_quotes "{'nodes':], 'links':]}").
Proof.
  intros Hwf Hn [src Hs] [tgt Ht].
  assert (src = []) as ->.
  { apply nil_length_inv. rewrite (well_formed_length _ _ _ Hwf Hs). done. }
  assert (tgt = []) as ->.
  { apply nil_length_inv. rewrite (well_formed_length _ _ _ Hwf Ht). done. }
  unfold get_data_ready_for_d3, node_fields, read_column.
  rewrite Hs, Ht, Hn. reflexivity.
Qed.

(** ** The separators of the two arrays *)

Lemma drop_last_snoc (a : string) (c : ascii) :
  drop_last (a +:+ String c EmptyString) = a.
Proof.
  induction a as [|x a IH]; [done|].
  destruct a as [|y a]; [done|].
  change (String x (drop_last (String y a +:+ String c EmptyString)) =
          String x (String y a)).
  by rewrite IH.
Qed.

Lemma join_ends (suffix : string) (ts : list string) :
  ts ≠ [] →
  Forall (λ t, ∃ b, t = b +:+ suffix) ts →
  ∃ b, join ts = b +:+ suffix.
Proof.
  induction ts as [|t ts IH]; [done|]. intros _ Hall.
  apply Forall_cons in Hall as [[b ->] Hall].
  destruct ts as [|t' ts].
  - exists b. simpl. by rewrite append_empty.
  - destruct IH as [b' Hb']; [done..|].
    exists ((b +:+ suffix) +:+ b').
    change (join ((b +:+ suffix) :: t' :: ts)) with ((b +:+ suffix) +:+ join (t' :: ts)).
    by rewrite Hb', !append_assoc.
Qed.

Lemma node_entry_ends name color opacity :
  ∃ b, node_entry name color opacity = b +:+ "}, ".
Proof.
  exists ("{" +:+ quoted "name" +:+ ":" +:+ dq +:+ name +:+ dq +:+ "," +:+
          quoted "color" +:+ ":" +:+ dq +:+ color +:+ dq +:+ "," +:+
          quoted "opacity" +:+ ":" +:+ py_str opacity).
  unfold node_entry. by rewrite !append_assoc.
Qed.

Lemma link_entry_ends v1 v2 v3 v4 v5 :
  ∃ b, link_entry v1 v2 v3 v4 v5 = b +:+ "},".
Proof.
  exists ("{" +:+ quoted "source" +:+ ":" +:+ py_str v1 +:+
          "," +:+ quoted "target" +:+ ":" +:+ py_str v2 +:+
          "," +:+ quoted "value" +:+ ":" +:+ py_str v3 +:+
          "," +:+ quoted "opacity" +:+ ":" +:+ py_str v4 +:+
          "," +:+ quoted "color" +:+ ":" +:+ dq +:+ py_str v5 +:+ dq).
  unfold link_entry. by rewrite !append_assoc.
Qed.

(** X14. For a table with at least one row, every text that
    [get_data_ready_for_d3] returns has a comma between the last node
    entry and the bracket that closes the nodes: line 219 takes one
    character off the two-character separator. The links close without
    one: line 226 takes the one-character separator off. *)
Theorem nodes_array_keeps_comma (df : DataFrame) (labels : gmap string Node)
    (X : string) :
  well_formed df = true →
  0 < nrows df →
  get_data_ready_for_d3 df labels = Return X →
  ∃ N L, X = with_double_quotes "{'nodes':[" +:+ N +:+
             with_double_quotes "},], 'links':[" +:+ L +:+ "}]}".
Proof.
  intros Hwf Hrows
    (src & tgt & ids & names & node_texts & link_texts &
     Hs & Ht & Hids & _ & Hnodes & Hlinks & ->)%get_data_ready_for_d3_return.
  destruct (join_ends "}, " node_texts) as [N HN].
  - intros ->. apply Forall2_nil_inv_r in Hnodes.
    unfold np_unique_index in Hnodes. apply fmap_nil_inv in Hnodes.
    pose proof (Forall2_length _ _ _ Hids) as Hlen.
    rewrite length_app, (well_formed_length _ _ _ Hwf Hs) in Hlen.
    destruct ids as [|z ids]; [simpl in Hlen; lia|].
    assert (z ∈ (np_unique (z :: ids)).*1) as Hz
      by apply np_unique_values, list_elem_of_here.
    rewrite Hnodes in Hz. by apply elem_of_nil in Hz.
  - apply Forall_forall. intros t [k Hk]%list_elem_of_lookup.
    destruct (Forall2_lookup_r _ _ _ _ _ Hnodes Hk) as (i & _ & Hi).
    unfold node_of_index in Hi.
    destruct (item names i) as [name|]; [|done]. simpl in Hi.
    destruct (subscript (labels !! name)) as [n|]; [|done]. simpl in Hi.
    injection Hi as <-. apply node_entry_ends.
  - destruct (join_ends "}," link_texts) as [L HL].
    + intros ->. apply Forall2_length in Hlinks. rewrite length_seq in Hlinks.
      simpl in Hlinks. lia.
    + apply Forall_forall. intros t [k Hk]%list_elem_of_lookup.
      destruct (Forall2_lookup_r _ _ _ _ _ Hlinks Hk) as (r & _ & Hr).
      apply link_of_row_return in Hr as (v1 & v2 & v3 & v4 & v5 & _ & _ & _ & _ & _ & ->).
      apply link_entry_ends.
    + exists N, L. unfold payload_text. rewrite HN, HL.
      change "}, " with ("}," +:+ " "). change "}," with ("}" +:+ ",") at 2.
      rewrite <- !(append_assoc _ _ " "), drop_last_snoc.
      rewrite <- !(append_assoc _ _ ","), drop_last_snoc.
      rewrite !append_assoc. reflexivity.
Qed.

(** * The two functions in sequence *)


Section Pipeline.

Variable colourmap : string → list string → string → string.




End Pipeline.

(** * [write_html] *)

Section WriteHtmlProperties.

Variable render : Content → string.

Lemma getitem_insert_ne (config : gmap string pyarg) k k' v :
  k ≠ k' → getitem (<[k := v]> config) k' = getitem config k'.
Proof. intros H. unfold getitem. by rewrite lookup_insert_ne. Qed.

(** X18. The contents of the files after [write_html] do not depend on
    [overwrite]: whatever the two values given for it, the outcome and
    the files are the same. In particular an existing file is replaced
    also when [overwrite] is False, since the file is opened for
    writing in either case. *)
Theorem write_html_whatever_overwrite (X : string) (config : gmap string pyarg)
    (files : gmap string string) (v v' : pyarg) :
  write_html render X (<["overwrite" := v]> config) files =
  write_html render X (<["overwrite" := v']> config) files.
Proof.
  unfold write_html.
  rewrite !(getitem_insert_ne config "overwrite" "title") by done.
  rewrite !(getitem_insert_ne config "overwrite" "figsize") by done.
  rewrite !(getitem_insert_ne config "overwrite" "fontsize") by done.
  rewrite !(getitem_insert_ne config "overwrite" "filepath") by done.
  destruct (getitem config "title") as [title|]; simpl; [|done].
  destruct (getitem config "figsize") as [figsize|]; simpl; [|done].
  destruct (getitem_at figsize 0) as [width|]; simpl; [|done].
  destruct (getitem_at figsize 1) as [height|]; simpl; [|done].
  destruct (getitem config "fontsize") as [fontsize|]; simpl; [|done].
  destruct (getitem config "filepath") as [filepath|]; simpl; [|done].
  destruct (Path filepath) as [index_file|]; simpl; [|done].
  unfold getitem. rewrite !lookup_insert_eq. simpl.
  destruct (truthy v && _), (truthy v' && _); by rewrite ?insert_delete_eq.
Qed.

(** X19. When [write_html] returns, the file of [filepath] holds the
    rendered template and every other file is as it was; when it raises
    for a key that the configuration lacks, no file is touched. *)
Theorem write_html_writes_one_file (X : string) (config : gmap string pyarg)
    (files files' : gmap string string) (o : outcome unit) :
  write_html render X config files = (files', o) →
  match o with
  | Return _ =>
      ∃ path content,
        config !! "filepath" = Some (One (PStr path)) ∧
        json_data content = X ∧
        files' !! path = Some (render content) ∧
        ∀ p, p ≠ path → files' !! p = files !! p
  | Raise _ => files' = files
  end.
Proof.
  unfold write_html.
  destruct (getitem config "title") as [title|]; simpl; [|by intros [= <- <-]].
  destruct (getitem config "figsize") as [figsize|]; simpl; [|by intros [= <- <-]].
  destruct (getitem_at figsize 0) as [width|]; simpl; [|by intros [= <- <-]].
  destruct (getitem_at figsize 1) as [height|]; simpl; [|by intros [= <- <-]].
  destruct (getitem config "fontsize") as [fontsize|]; simpl; [|by intros [= <- <-]].
  destruct (getitem config "filepath") as [filepath|] eqn:Hpath; simpl;
    [|by intros [= <- <-]].
  unfold getitem in Hpath.
  destruct (config !! "filepath") as [filepath'|]; [|done]. injection Hpath as ->.
  destruct filepath as [[| | | |path]|]; simpl; try by intros [= <- <-].
  destruct (getitem config "overwrite") as [overwrite|]; simpl;
    [|by intros [= <- <-]].
  intros [= <- <-].
  exists path, (mkContent X title width height fontsize).
  repeat split; try done.
  - by rewrite lookup_insert_eq.
  - intros p Hp. rewrite lookup_insert_ne by done.
    destruct (truthy overwrite && _); [|done]. by rewrite lookup_delete_ne.
Qed.

End WriteHtmlProperties.

(** * When [set_edge_properties] raises *)

Section Failures.

Variable colourmap : string → list string → string → string.




End Failures.

(** * The further properties at the samples *)

Lemma scalar_opacity_uniform_witness :
  columns (set_edge_properties sample_colourmap (One (PStr "target"))
             (One (PFloat "0.35")) "tab20" (Some nodesAB) edges3).1 !! "opacity" =
    Some (replicate (nrows edges3) (PFloat "0.35")).
Proof. apply scalar_opacity_uniform. reflexivity. Defined.

Lemma unmatched_opacity_defaults_witness :
  columns (set_edge_properties sample_colourmap (One (PStr "target"))
             (One (PStr "source")) "tab20" None edges3).1 !! "opacity" =
    Some (replicate (nrows edges3) (PFloat "0.8")).
Proof.
  apply unmatched_opacity_defaults.
  - reflexivity.
  - reflexivity.
  - left. reflexivity.
  - reflexivity.
  - reflexivity.
Defined.

Lemma hex_color_uniform_witness :
  let df1 := (opacity_rules (One (PStr "#a1b2c3")) (One (PFloat "0.8")) None
                edges3).1 in
  set_edge_properties sample_colourmap (One (PStr "#a1b2c3")) (One (PFloat "0.8"))
    "tab20" None edges3 =
    (mkDF (nrows edges3)
       (<["color" := replicate (nrows edges3) (PStr "#a1b2c3")]> (columns df1)),
     Return tt).
Proof.
  apply hex_color_uniform.
  - vm_compute. reflexivity.
  - vm_compute. reflexivity.
  - vm_compute. reflexivity.
Defined.


Lemma existing_columns_used_verbatim_witness :
  let pre := assign_scalar "weight" (PFloat "1.0") in
  set_edge_properties_with pre sample_colourmap (One PNone) (One PNone) "tab20"
    (Some nodesAB) edges3_styled = ((pre edges3_styled).1, Return tt).
Proof.
  apply existing_columns_used_verbatim.
  - vm_compute. reflexivity.
  - reflexivity.
  - intros u _. vm_compute. reflexivity.
Defined.

Lemma per_row_color_not_assigned_witness :
  let df' := (set_edge_properties sample_colourmap
                (Many [PStr "#111111"; PStr "#222222"; PStr "#333333"])
                (One (PFloat "0.8")) "tab20" None edges3).1 in
  columns df' !! "color" = columns edges3 !! "color" ∧
  columns df' !! "labels" = columns edges3 !! "labels".
Proof. apply per_row_color_not_assigned. reflexivity. Defined.



Lemma node_opacity_needs_endpoint_column_witness :
  set_edge_properties sample_colourmap (One (PStr "target")) (One (PStr "source"))
    "tab20" (Some nodesAB) edges_no_source =
    (mkDF (nrows edges_no_source)
       (<["opacity" := replicate (nrows edges_no_source) (PFloat "0.8")]>
          (columns edges_no_source)),
     Raise (KeyError "source")).
Proof.
  apply node_opacity_needs_endpoint_column.
  - left. reflexivity.
  - vm_compute. reflexivity.
  - intros H. apply (f_equal (λ m : gmap string Node, m !! "A")) in H.
    vm_compute in H. discriminate H.
Defined.

Lemma labels_identify_pairs_witness :
  length (ismember_rows [("A", "B"); ("C", "A"); ("A", "B")]
            (groupby_source_target [("A", "B"); ("C", "A"); ("A", "B")])) = 3.
Proof. exact (proj1 (labels_identify_pairs [("A", "B"); ("C", "A"); ("A", "B")])). Defined.


Lemma payload_needs_columns_witness :
  is_Some (columns edgesAB_resolved !! "source") ∧
  is_Some (columns edgesAB_resolved !! "target") ∧
  (0 < nrows edgesAB_resolved →
   ∀ c, c ∈ ["source_id"; "target_id"; "weight"; "opacity"; "color"] →
        ∃ col, columns edgesAB_resolved !! c = Some col ∧
               ∀ r, r < nrows edgesAB_resolved → is_Some (col !! r)).
Proof.
  apply (payload_needs_columns edgesAB_resolved nodesAB (payload_built ",")).
  vm_compute. reflexivity.
Defined.

Lemma empty_table_text_witness :
  get_data_ready_for_d3 edges_empty nodesAB =
    Return (with_double_quotes "{'nodes':], 'links':]}").
Proof.
  apply empty_table_text.
  - vm_compute. reflexivity.
  - reflexivity.
  - eexists. vm_compute. reflexivity.
  - eexists. vm_compute. reflexivity.
Defined.

Lemma nodes_array_keeps_comma_witness :
  ∃ N L, payload_built "," =
           with_double_quotes "{'nodes':[" +:+ N +:+
           with_double_quotes "},], 'links':[" +:+ L +:+ "}]}".
Proof.
  apply (nodes_array_keeps_comma edgesAB_resolved nodesAB).
  - vm_compute. reflexivity.
  - simpl. lia.
  - vm_compute. reflexivity.
Defined.




Lemma write_html_writes_one_file_witness :
  let files : gmap string string :=
    <["chord.html" := "old"]> (<["other.html" := "kept"]> ∅) in
  ∃ path content,
    sample_config !! "filepath" = Some (One (PStr path)) ∧
    json_data content = payload_built "," ∧
    (write_html sample_render (payload_built ",") sample_config files).1 !! path =
      Some (sample_render content) ∧
    ∀ p, p ≠ path →
         (write_html sample_render (payload_built ",") sample_config files).1 !! p =
         files !! p.
Proof.
  exact (write_html_writes_one_file sample_render (payload_built ",") sample_config
           (<["chord.html" := "old"]> (<["other.html" := "kept"]> ∅))
           _ (Return tt) eq_refl).
Defined.

(** * Order of the nodes and links at a sample *)

Lemma strictly_sorted_unique (l1 l2 : list Z) :
  StronglySorted Z.lt l1 → StronglySorted Z.lt l2 →
  (∀ z, z ∈ l1 ↔ z ∈ l2) → l1 = l2.
Proof.
  intros H1. revert l2. induction H1 as [|x l1 Hs1 IH Hall1]; intros l2 H2 Hmem.
  - destruct l2 as [|y l2]; [done|].
    assert (y ∈ @nil Z) as Hy by apply Hmem, list_elem_of_here.
    by apply elem_of_nil in Hy.
  - destruct l2 as [|y l2].
    { assert (x ∈ @nil Z) as Hx by apply Hmem, list_elem_of_here.
      by apply elem_of_nil in Hx. }
    apply StronglySorted_inv in H2 as [Hs2 Hall2].
    rewrite Forall_forall in Hall1, Hall2.
    assert (x = y) as ->.
    { assert (x ∈ y :: l2) as Hx by apply Hmem, list_elem_of_here.
      assert (y ∈ x :: l1) as Hy by apply Hmem, list_elem_of_here.
      apply elem_of_cons in Hx as [?|Hx]; [done|].
      apply elem_of_cons in Hy as [?|Hy]; [done|].
      specialize (Hall2 x Hx). specialize (Hall1 y Hy). lia. }
    f_equal. apply IH; [done|]. intros z. split; intros Hz.
    + assert (z ∈ y :: l2) as Hz' by (apply Hmem; by apply list_elem_of_further).
      apply elem_of_cons in Hz' as [->|?]; [|done]. specialize (Hall1 y Hz). lia.
    + assert (z ∈ y :: l1) as Hz' by (apply Hmem; by apply list_elem_of_further).
      apply elem_of_cons in Hz' as [->|?]; [|done]. specialize (Hall2 y Hz). lia.
Qed.

(** The theorem at a table of three rows whose ids first occur as 2, 1,
    0, each key occurring twice: the nodes come out as 0, 1, 2 (A, B,
    C), once each, and the links in the order of the rows. *)
Lemma nodes_by_id_links_by_row_witness :
  get_data_ready_for_d3 edges_mixed_resolved nodesABC = Return payload_mixed ∧
  ∃ (ids : list Z) (emitted : list (Z * nat)) (node_texts link_texts : list string),
    ids = [2; 1; 2; 0; 0; 1]%Z ∧
    emitted.*1 = [0; 1; 2]%Z ∧
    StronglySorted Z.lt emitted.*1 ∧
    NoDup emitted.*1 ∧
    (∀ z, z ∈ emitted.*1 ↔ z ∈ ids) ∧
    node_texts = [node_entry "A" "#aaa" (PFloat "0.5");
                  node_entry "B" "#bbb" (PFloat "0.6");
                  node_entry "C" "#ccc" (PFloat "0.7")] ∧
    link_texts =
      [link_entry (PInt 2) (PInt 0) (PInt 4) (PFloat "0.7") (PStr "#ccc");
       link_entry (PInt 1) (PInt 0) (PInt 5) (PFloat "0.6") (PStr "#bbb");
       link_entry (PInt 2) (PInt 1) (PInt 6) (PFloat "0.7") (PStr "#ccc")] ∧
    payload_mixed = payload_text node_texts link_texts.
Proof.
  split; [vm_compute; reflexivity|].
  destruct (nodes_by_id_links_by_row edges_mixed_resolved nodesABC payload_mixed)
    as (src & tgt & ids & names & emitted & node_texts & link_texts &
        Hs & Ht & Hids & Hnames & Hsorted & Hnodup & Hmem & Hnodes & Hlinks & Htext).
  { vm_compute. reflexivity. }
  vm_compute in Hs, Ht. injection Hs as <-. injection Ht as <-.
  pose proof (node_fields_found
                (mkDF 0 (<["k" := [PStr "C"; PStr "B"; PStr "C"] ++
                                  [PStr "A"; PStr "A"; PStr "B"]]> ∅))
                nodesABC node_id "k" _ ids eq_refl Hids) as Hcalc.
  vm_compute in Hcalc. injection Hcalc as <-.
  pose proof (node_fields_found
                (mkDF 0 (<["k" := [PStr "C"; PStr "B"; PStr "C"] ++
                                  [PStr "A"; PStr "A"; PStr "B"]]> ∅))
                nodesABC node_desc "k" _ names eq_refl Hnames) as Hcalc.
  vm_compute in Hcalc. injection Hcalc as <-.
  assert (emitted.*1 = [0; 1; 2]%Z) as Hem.
  { apply strictly_sorted_unique; [done| |].
    - repeat constructor; lia.
    - intros z. rewrite Hmem, !elem_of_cons, !elem_of_nil. tauto. }
  exists [2; 1; 2; 0; 0; 1]%Z, emitted, node_texts, link_texts.
  split; [reflexivity|]. split; [exact Hem|]. split; [exact Hsorted|].
  split; [exact Hnodup|]. split; [exact Hmem|].
  destruct emitted as [|[z0 i0] [|[z1 i1] [|[z2 i2] [|]]]]; try discriminate Hem.
  injection Hem as -> -> ->.
  apply Forall2_cons_inv_l in Hnodes as (t0 & k0 & [Hi0 Hn0] & Hnodes & ->).
  apply Forall2_cons_inv_l in Hnodes as (t1 & k1 & [Hi1 Hn1] & Hnodes & ->).
  apply Forall2_cons_inv_l in Hnodes as (t2 & k2 & [Hi2 Hn2] & Hnodes & ->).
  apply Forall2_nil_inv_l in Hnodes as ->.
  simpl in Hlinks.
  apply Forall2_cons_inv_l in Hlinks as (u0 & m0 & Hl0 & Hlinks & ->).
  apply Forall2_cons_inv_l in Hlinks as (u1 & m1 & Hl1 & Hlinks & ->).
  apply Forall2_cons_inv_l in Hlinks as (u2 & m2 & Hl2 & Hlinks & ->).
  apply Forall2_nil_inv_l in Hlinks as ->.
  vm_compute in Hl0, Hl1, Hl2.
  injection Hl0 as <-. injection Hl1 as <-. injection Hl2 as <-.
  simpl in Hi0, Hi1, Hi2, Hn0, Hn1, Hn2.
  destruct i0 as [|[|[|[|[|[|?]]]]]]; try discriminate Hi0;
    destruct i1 as [|[|[|[|[|[|?]]]]]]; try discriminate Hi1;
    destruct i2 as [|[|[|[|[|[|?]]]]]]; try discriminate Hi2;
    vm_compute in Hn0, Hn1, Hn2;
    injection Hn0 as <-; injection Hn1 as <-; injection Hn2 as <-;
    (split; [vm_compute; reflexivity|]);
    (split; [vm_compute; reflexivity|]);
    exact Htext.
Defined.
